(** * Community-report context assembly: [sort_context] and [sort_context_batch]

    Shallow embedding of
    [graphrag/index/graph/extractors/community_reports/sort_context.py].

    Python dictionaries are association lists in insertion order, pandas
    frames are a column list with one re-indexed dictionary per row, and a
    raised exception ([KeyError], [TypeError], a failing cast) is the result
    [None].  The pandas text writer, the identity-column cast, the order in
    which [groupby] presents its keys and the tokenizer are collaborators of
    the module and enter as type classes, their contracts as hypotheses of
    the sections that need them.

    Scope of the embedding.  A Python [str] is the string of its UTF-8
    bytes.  Cells are scalars, and equality of cells ([drop_duplicates],
    dictionary keys, [==]) is equality as written: the Python
    identifications [1 == 1.0 == True] are not modelled there.  Sort keys
    are compared as Python compares them: numbers by value, strings by code
    point, a [TypeError] between the two.  [sorted] and [sort_values] are
    stable, so on keys that are totally ordered their result is that of a
    stable insertion sort.  One case is not followed: [sorted] on two or
    more numeric keys of which one is NaN returns a list whose order depends
    on the sorting algorithm; the embedding has [None] there. *)

From Stdlib Require Import List String Ascii ZArith Lia Bool.
From Stdlib Require Import Sorting.Sorted Permutation DecimalString.
Import ListNotations.

Local Open Scope string_scope.
Local Open Scope list_scope.
Local Open Scope Z_scope.

Set Implicit Arguments.

(** ** Python values and dictionaries *)

(** The scalars that occur as cells of detail records.  [VNaN] is the
    floating-point not-a-number placeholder, [VFloat m e] the finite float
    [m * 2^e]. *)
Inductive value : Type :=
| VNone
| VNaN
| VBool (b : bool)
| VInt (z : Z)
| VFloat (m e : Z)
| VStr (s : string).

Definition value_eq_dec (a b : value) : {a = b} + {a <> b}.
Proof.
  decide equality; auto using Z.eq_dec, string_dec, bool_dec.
Defined.

Definition value_eqb (a b : value) : bool :=
  if value_eq_dec a b then true else false.

(** A detail record: a Python [dict] from column names to scalars. *)
Definition dict : Type := list (string * value).

Definition dict_eq_dec (a b : dict) : {a = b} + {a <> b}.
Proof.
  apply list_eq_dec. intros [k v] [k' v'].
  destruct (string_dec k k'); [ | right; congruence ].
  destruct (value_eq_dec v v'); [ left | right ]; congruence.
Defined.

(** [d.get(k)] / [d[k]]; [None] stands for an absent key. *)
Fixpoint get (k : string) (d : dict) : option value :=
  match d with
  | [] => None
  | (k', v) :: rest => if string_dec k k' then Some v else get k rest
  end.

Definition keys (d : dict) : list string := map fst d.

(** Python truthiness [bool(v)]. *)
Definition truthy (v : value) : bool :=
  match v with
  | VNone => false
  | VNaN => true
  | VBool b => b
  | VInt z => negb (z =? 0)
  | VFloat m _ => negb (m =? 0)
  | VStr s => negb (String.eqb s "")
  end.

(** The white space [str.strip] removes: the characters for which
    [str.isspace] holds, which are U+0009 to U+000D, U+001C to U+0020,
    U+0085, U+00A0, U+1680, U+2000 to U+200A, U+2028, U+2029, U+202F,
    U+205F and U+3000.  Those below U+0080 are one byte: *)
Definition is_space (c : ascii) : bool :=
  let n := nat_of_ascii c in
  ((9 <=? n) && (n <=? 13) || (28 <=? n) && (n <=? 32))%nat.

(** U+0085 and U+00A0 are the bytes C2 85 and C2 A0: *)
Definition is_space2 (c1 c2 : ascii) : bool :=
  let n2 := nat_of_ascii c2 in
  ((nat_of_ascii c1 =? 194) && ((n2 =? 133) || (n2 =? 160)))%nat.

(** U+1680 is E1 9A 80, U+2000 to U+200A are E2 80 80 to E2 80 8A, U+2028,
    U+2029 and U+202F are E2 80 A8, E2 80 A9 and E2 80 AF, U+205F is
    E2 81 9F and U+3000 is E3 80 80. *)
Definition is_space3 (c1 c2 c3 : ascii) : bool :=
  let n1 := nat_of_ascii c1 in
  let n2 := nat_of_ascii c2 in
  let n3 := nat_of_ascii c3 in
  ((n1 =? 225) && (n2 =? 154) && (n3 =? 128)
   || (n1 =? 226) && (n2 =? 128)
      && ((128 <=? n3) && (n3 <=? 138) || (n3 =? 168) || (n3 =? 169)
          || (n3 =? 175))
   || (n1 =? 226) && (n2 =? 129) && (n3 =? 159)
   || (n1 =? 227) && (n2 =? 128) && (n3 =? 128))%nat.

(** [s.strip() == ""]: [s] holds white space only. *)
Fixpoint blank (s : string) : bool :=
  match s with
  | EmptyString => true
  | String c1 rest1 =>
      if is_space c1 then blank rest1
      else
        match rest1 with
        | EmptyString => false
        | String c2 rest2 =>
            if is_space2 c1 c2 then blank rest2
            else
              match rest2 with
              | EmptyString => false
              | String c3 rest3 => is_space3 c1 c2 c3 && blank rest3
              end
        end
  end.

(** [str(v).strip() != ""]: only a string can print as blank text. *)
Definition prints_nonblank (v : value) : bool :=
  match v with
  | VStr s => negb (blank s)
  | _ => true
  end.

(** The guard of every comprehension in the single-community renderer:
    [col in r and r[col] and str(r[col]).strip() != ""]. *)
Definition has_identity (col : string) (r : dict) : bool :=
  match get col r with
  | Some v => truthy v && prints_nonblank v
  | None => false
  end.

(** ** Frames *)

Section Dedup.
Variable A : Type.
Variable eq_dec : forall a b : A, {a = b} + {a <> b}.

Definition differs (x y : A) : bool := if eq_dec x y then false else true.

(** Keep the first occurrence of every element, as
    [DataFrame.drop_duplicates()] does with its default [keep="first"]. *)
Fixpoint dedup (l : list A) : list A :=
  match l with
  | [] => []
  | x :: rest => x :: filter (differs x) (dedup rest)
  end.

(** [y] does not occur in [a]. *)
Definition absent (a : list A) (y : A) : bool :=
  if in_dec eq_dec y a then false else true.
End Dedup.

(** A frame: its columns and one record per row, every record carrying
  exactly the frame's columns. *)
Record DataFrame : Type := mkDataFrame {
columns : list string;
records : list dict
}.

(** A cell for a column the row's dictionary lacks is NaN. *)
Definition cell (c : string) (d : dict) : value :=
match get c d with
| Some v => v
| None => VNaN
end.

Definition reindex (cols : list string) (d : dict) : dict :=
map (fun c => (c, cell c d)) cols.

(** [pd.DataFrame(rows)] for a list of dictionaries: the columns are the
  keys in order of first appearance. *)
Definition frame_of (rows : list dict) : DataFrame :=
let cols := dedup string_dec (flat_map keys rows) in
mkDataFrame cols (map (reindex cols) rows).

Definition drop_duplicates (df : DataFrame) : DataFrame :=
mkDataFrame (columns df) (dedup dict_eq_dec (records df)).

(** [df.empty]: some axis has length zero. *)
Definition empty (df : DataFrame) : bool :=
match columns df, records df with
| [], _ => true
| _, [] => true
| _, _ => false
end.

(** [df.to_dict("records")]. *)
Definition to_dict_records (df : DataFrame) : list dict := records df.

Definition has_column (c : string) (df : DataFrame) : bool :=
if in_dec string_dec c (columns df) then true else false.

(** The element-wise [==] of a column with a scalar: a null cell equals
  nothing. *)
Definition series_eq (a b : value) : bool :=
match a with
| VNone | VNaN => false
| _ => value_eqb a b
end.

(** [df[df[c] == v]]; [None] is the [KeyError] of a missing column. *)
Definition select_eq (c : string) (v : value) (df : DataFrame)
: option DataFrame :=
if has_column c df
then Some (mkDataFrame (columns df)
             (filter (fun r => series_eq (cell c r) v) (records df)))
else None.

(** [df[df[c].isin(vs)]]. *)
Definition select_isin (c : string) (vs : list value) (df : DataFrame)
: option DataFrame :=
if has_column c df
then Some (mkDataFrame (columns df)
             (filter (fun r => existsb (value_eqb (cell c r)) vs)
                     (records df)))
else None.

(** ** A small error monad for raised exceptions *)

Definition bind {A B : Type} (m : option A) (f : A -> option B) : option B :=
match m with
| Some a => f a
| None => None
end.

Notation "x <- m ;; k" := (bind m (fun x => k))
(at level 61, m at next level, right associativity).

(** Section headers, exactly as the source writes them. *)
Definition reports_header : string := "----Reports-----".
Definition entities_header : string := "-----Entities-----".
Definition claims_header : string := "-----Claims-----".
Definition relationships_header : string := "-----Relationships-----".

Definition newline : string := String (ascii_of_nat 10) EmptyString.
Definition blank_line : string := (newline ++ newline)%string.

(** [s] ends with a newline, as every text [to_csv] writes does. *)
Definition terminated (s : string) : Prop :=
  exists t, s = (t ++ newline)%string.

(** ** Stable sorting

  [sorted(..., reverse=True)] and [DataFrame.sort_values] are stable; for
  a total preorder the result of a stable sort is unique, so a stable
  insertion sort computes the same list. [leb a b] reads "[a] may stand
  before [b]". *)
Section StableSort.
Variable A : Type.
Variable leb : A -> A -> bool.

Fixpoint insert (x : A) (l : list A) : list A :=
  match l with
  | [] => [x]
  | y :: rest => if leb x y then x :: y :: rest else y :: insert x rest
  end.

Fixpoint stable_sort (l : list A) : list A :=
  match l with
  | [] => []
  | x :: rest => insert x (stable_sort rest)
  end.
End StableSort.

(** ** Sort keys

    The cells [sorted] and [sort_values] compare.  Python orders numbers
    ([bool], [int], [float]) among themselves by value, exactly, and
    strings among themselves by code point, which is the order of their
    UTF-8 bytes; a number and a string do not compare ([TypeError]), [None]
    compares with nothing and NaN is unordered. *)
Inductive key : Type :=
| NumKey (m e : Z)
| StrKey (s : string)
| NullKey.

(** The key of a cell; [NumKey m e] is the number [m * 2^e]. *)
Definition key_of (v : value) : key :=
  match v with
  | VNone | VNaN => NullKey
  | VBool b => NumKey (if b then 1 else 0) 0
  | VInt z => NumKey z 0
  | VFloat m e => NumKey m e
  | VStr s => StrKey s
  end.

(** [m1 * 2^e1 <= m2 * 2^e2], both sides brought to the smaller exponent. *)
Definition num_leb (m1 e1 m2 e2 : Z) : bool :=
  let e := Z.min e1 e2 in
  m1 * 2 ^ (e1 - e) <=? m2 * 2 ^ (e2 - e).

(** Python's [a <= b] where it holds; [false] where the comparison is false,
    raises or has an unordered operand. *)
Definition py_leb (a b : key) : bool :=
  match a, b with
  | NumKey m1 e1, NumKey m2 e2 => num_leb m1 e1 m2 e2
  | StrKey s1, StrKey s2 => String.leb s1 s2
  | _, _ => false
  end.



Definition is_num (k : key) : bool :=
  match k with NumKey _ _ => true | _ => false end.

Definition is_str (k : key) : bool :=
  match k with StrKey _ => true | _ => false end.

Definition is_null_key (k : key) : bool :=
  match k with NullKey => true | _ => false end.

(** Keys of one kind, numbers or strings: any two of them compare. *)
Definition one_kind (ks : list key) : bool :=
  forallb is_num ks || forallb is_str ks.

(** Ascending order with nulls last.  On keys of one kind it is Python's
    [<=]; the sorts below apply it to such keys and to nulls only, and the
    rank of a number below a string only makes the order total. *)
Definition asc_leb (a b : key) : bool :=
  match a, b with
  | NumKey m1 e1, NumKey m2 e2 => num_leb m1 e1 m2 e2
  | StrKey s1, StrKey s2 => String.leb s1 s2
  | NumKey _ _, StrKey _ => true
  | StrKey _, NumKey _ _ => false
  | _, NullKey => true
  | NullKey, _ => false
  end.

(** Descending order with nulls last. *)
Definition desc_leb (a b : key) : bool :=
  match a, b with
  | _, NullKey => true
  | NullKey, _ => false
  | _, _ => asc_leb b a
  end.

(** [l1] is [l2] with some elements left out, the rest in their order. *)
Inductive subseq {A : Type} : list A -> list A -> Prop :=
| subseq_nil : subseq [] []
| subseq_skip (x : A) (l1 l2 : list A) : subseq l1 l2 -> subseq l1 (x :: l2)
| subseq_keep (x : A) (l1 l2 : list A) :
    subseq l1 l2 -> subseq (x :: l1) (x :: l2).

(** [a] occurs in [l] at an earlier position than [b]. *)
Definition before {A : Type} (a b : A) (l : list A) : Prop :=
  subseq [a; b] l.

(** [mapM] in the exception monad. *)
Fixpoint traverse {A B : Type} (f : A -> option B) (l : list A)
: option (list B) :=
match l with
| [] => Some []
| x :: rest => y <- f x ;; ys <- traverse f rest ;; Some (y :: ys)
end.

(** ** Collaborators *)

(** The column names of module [schemas], which is configuration of the
  repository outside this file. *)
Class Schema : Type := {
NODE_ID : string;
NODE_NAME : string;
EDGE_ID : string;
EDGE_DEGREE : string;
EDGE_SOURCE : string;
EDGE_TARGET : string;
CLAIM_ID : string;
CLAIM_SUBJECT : string;
COMMUNITY_ID : string
}.

(** pandas: the text writer [to_csv(index=False, sep=',')], the test
  [df[c].dtype == float], the cast [df[c] = df[c].astype(int)] (which
  raises on a non-finite float) and the order in which [groupby] presents
  the distinct non-null keys it is given. *)
Class Pandas : Type := {
to_csv : DataFrame -> string;
dtype_is_float : string -> DataFrame -> bool;
astype_int : string -> DataFrame -> option DataFrame;
sort_group_keys : list value -> list value
}.

(** [a] may stand before [b] in ascending order. *)
Definition key_order (a b : value) : Prop :=
asc_leb (key_of a) (key_of b) = true.

(** The contract of [groupby] (taken with its default [sort=True]): every
  distinct key is presented once, and keys of one kind are presented in
  ascending order. *)
Definition groupby_contract `{Pandas} : Prop :=
forall ks : list value,
  NoDup ks ->
  Permutation (sort_group_keys ks) ks
  /\ (one_kind (map key_of ks) = true ->
      StronglySorted key_order (sort_group_keys ks)).

(** [graphrag.query.llm.text_utils.num_tokens]. *)
Class Tokenizer : Type := {
num_tokens : string -> nat
}.

(** [bool(max_tokens)] for [max_tokens: int | None]: the budget in force. *)
Definition budget (max_tokens : option Z) : option Z :=
match max_tokens with
| Some b => if b =? 0 then None else Some b
| None => None
end.

Definition exceeds `{Tokenizer} (s : string) (b : Z) : bool :=
Z.of_nat (num_tokens s) >? b.

(** ** [sort_context]: one community *)
Module Single.
Section Single.
Context {schemas : Schema} {pandas : Pandas} {tokenizer : Tokenizer}.

(** The frame of one collection: the comprehension that keeps identified
    records, [pd.DataFrame(...)], [drop_duplicates()]. *)
Definition block_frame (id_column : string) (rows : list dict) : DataFrame :=
  drop_duplicates (frame_of (filter (has_identity id_column) rows)).

(** [if df[c].dtype == float: df[c] = df[c].astype(int)]. *)
Definition normalize_id (id_column : string) (df : DataFrame)
  : option DataFrame :=
  if dtype_is_float id_column df then astype_int id_column df else Some df.

(** One of the four stanzas of [_get_context_string]: filter, build the
    frame, and append header and table when the frame is not empty. *)
Definition append_block (header id_column : string) (rows : list dict)
    (contexts : list string) : option (list string) :=
  let df := block_frame id_column rows in
  if empty df then Some contexts
  else
    df' <- normalize_id id_column df ;;
    Some (contexts ++ [(header ++ newline ++ to_csv df')%string]).

Definition _get_context_string (entities edges claims : list dict)
    (sub_community_reports : option (list dict)) : option string :=
  contexts <-
    match sub_community_reports with
    | Some ((_ :: _) as reports) =>
        append_block reports_header COMMUNITY_ID reports []
    | _ => Some []
    end ;;
  contexts <- append_block entities_header NODE_ID entities contexts ;;
  contexts <-
    match claims with
    | [] => Some contexts
    | _ :: _ => append_block claims_header CLAIM_ID claims contexts
    end ;;
  contexts <- append_block relationships_header EDGE_ID edges contexts ;;
  Some (String.concat blank_line contexts).

(** An element of an edge list: a dictionary or some scalar. *)
Inductive pyobj : Type :=
| PyVal (v : value)
| PyDict (d : dict).

(** [pd.isna(o)]. *)
Definition isna (o : pyobj) : bool :=
  match o with
  | PyVal VNone | PyVal VNaN => true
  | _ => false
  end.

(** One element of [local_context]. A field holding [None] stands for
    the key being absent, where the source reads it with
    [record.get(column, [])]; a claim that is [None] is a null
    placeholder. *)
Record LocalContextRecord : Type := {
  node_name : value;
  node_details : dict;
  edge_details : option (list pyobj);
  claim_details : option (list (option dict))
}.

(** The dictionaries [node_details] and [claim_details] of the source,
    keyed by node name: the most recent binding is found first. *)
Definition Store (A : Type) : Type := list (value * A).

Fixpoint store_get {A : Type} (k : value) (m : Store A) : option A :=
  match m with
  | [] => None
  | (k', a) :: rest => if value_eq_dec k k' then Some a else store_get k rest
  end.

Definition store_set {A : Type} (k : value) (a : A) (m : Store A)
  : Store A := (k, a) :: m.

Definition get_or {A : Type} (k : value) (m : Store A) (default : A) : A :=
  match store_get k m with
  | Some a => a
  | None => default
  end.

Definition or_empty {A : Type} (o : option (list A)) : list A :=
  match o with
  | Some l => l
  | None => []
  end.

Definition dropna {A : Type} (l : list (option A)) : list A :=
  flat_map (fun o => match o with Some a => [a] | None => [] end) l.

Record Flattened : Type := {
  flat_edges : list pyobj;
  flat_nodes : Store dict;
  flat_claims : Store (list dict)
}.

(** The first loop: pool the edges, index details and claims by name. *)
Definition flatten_record (acc : Flattened) (record : LocalContextRecord)
  : Flattened :=
  let record_edges :=
    filter (fun e => negb (isna e)) (or_empty (edge_details record)) in
  let record_claims := dropna (or_empty (claim_details record)) in
  {| flat_edges := flat_edges acc ++ record_edges;
     flat_nodes :=
       store_set (node_name record) (node_details record) (flat_nodes acc);
     flat_claims :=
       store_set (node_name record) record_claims (flat_claims acc) |}.

Definition flatten (local_context : list LocalContextRecord) : Flattened :=
  fold_left flatten_record local_context
    {| flat_edges := []; flat_nodes := []; flat_claims := [] |}.

(** [[edge for edge in edges if isinstance(edge, dict)]]. *)
Definition dict_edges (pool : list pyobj) : list dict :=
  flat_map (fun o => match o with PyDict d => [d] | PyVal _ => [] end) pool.

(** [x[edge_degree_column]] as a sort key: a [KeyError] when absent. *)
Definition degree (edge : dict) : option key :=
  option_map key_of (get EDGE_DEGREE edge).

Definition degree_desc (a b : key * dict) : bool := desc_leb (fst a) (fst b).

(** The keys [sorted] orders: fewer than two, where nothing is compared,
    or keys of one kind. *)
Definition comparable (ks : list key) : bool :=
  match ks with
  | [] | [_] => true
  | _ => one_kind ks
  end.

(** [sorted(edges, key=lambda x: x[edge_degree_column], reverse=True)]:
    the key function raises a [KeyError] on an edge without degree and the
    comparison a [TypeError] on keys of two kinds or on [None]; the sort is
    stable, also with [reverse=True].  (A NaN among several keys is the
    case that is not followed.) *)
Definition sort_by_degree (edges : list dict) : option (list dict) :=
  keyed <- traverse (fun e => d <- degree e ;; Some (d, e)) edges ;;
  if comparable (map fst keyed)
  then Some (map snd (stable_sort degree_desc keyed))
  else None.

(** The three growing lists of the second loop. *)
Record Growth : Type := {
  sorted_nodes : list dict;
  sorted_edges : list dict;
  sorted_claims : list dict
}.

Definition nonempty {A : Type} (l : list A) : bool :=
  match l with
  | [] => false
  | _ :: _ => true
  end.

(** The two [sorted_claims.extend] lines. *)
Definition extend_claims (claims : Store (list dict)) (source target : value)
    (sorted_claims : list dict) : list dict :=
  let source_claims := get_or source claims [] in
  let target_claims := get_or target claims [] in
  let sorted_claims :=
    sorted_claims ++ (if nonempty source_claims then source_claims else []) in
  sorted_claims ++ (if nonempty source_claims then target_claims else []).

(** The body of the growth loop up to the budget test. *)
Definition grow_step (flat : Flattened) (st : Growth) (edge : dict)
  : option Growth :=
  source <- get EDGE_SOURCE edge ;;
  target <- get EDGE_TARGET edge ;;
  let source_details := get_or source (flat_nodes flat) [] in
  let target_details := get_or target (flat_nodes flat) [] in
  Some {| sorted_nodes := sorted_nodes st ++ [source_details; target_details];
          sorted_edges := sorted_edges st ++ [edge];
          sorted_claims :=
            extend_claims (flat_claims flat) source target (sorted_claims st) |}.

Definition render (sub_community_reports : option (list dict)) (st : Growth)
  : option string :=
  _get_context_string (sorted_nodes st) (sorted_edges st) (sorted_claims st)
    sub_community_reports.

(** [for edge in edges: ...], with [break] when the render of the grown
    lists counts more tokens than the budget; the result is the lists and
    [context_string] when the loop is left. *)
Fixpoint grow (flat : Flattened) (reports : option (list dict))
    (max_tokens : option Z) (edges : list dict) (st : Growth)
    (context_string : string) : option (Growth * string) :=
  match edges with
  | [] => Some (st, context_string)
  | edge :: rest =>
      st <- grow_step flat st edge ;;
      match budget max_tokens with
      | Some b =>
          new_context_string <- render reports st ;;
          if exceeds new_context_string b then Some (st, context_string)
          else grow flat reports max_tokens rest st new_context_string
      | None => grow flat reports max_tokens rest st context_string
      end
  end.

Definition initial : Growth :=
  {| sorted_nodes := []; sorted_edges := []; sorted_claims := [] |}.

Definition sort_context (local_context : list LocalContextRecord)
    (sub_community_reports : option (list dict)) (max_tokens : option Z)
  : option string :=
  let flat := flatten local_context in
  edges <- sort_by_degree (dict_edges (flat_edges flat)) ;;
  final <- grow flat sub_community_reports max_tokens edges initial "" ;;
  let (st, context_string) := final in
  if String.eqb context_string ""
  then render sub_community_reports st
  else Some context_string.

(** The lists after the loop body has run on every edge of [edges]. *)
Fixpoint grow_lists (flat : Flattened) (st : Growth) (edges : list dict)
  : option Growth :=
  match edges with
  | [] => Some st
  | edge :: rest => st <- grow_step flat st edge ;; grow_lists flat st rest
  end.


(** [a] has a degree no smaller than that of [b]. *)
Definition degree_ge (a b : dict) : Prop :=
  exists da db,
    degree a = Some da /\ degree b = Some db /\ py_leb db da = true.



(** Inputs on which no exception is raised: every edge carries a degree,
    the degrees compare, every edge carries a source and a target, and no
    identity is NaN (the cast of a float identity column raises on
    NaN). *)
Definition finite_id (c : string) (d : dict) : bool :=
  match get c d with
  | Some VNaN => false
  | _ => true
  end.

Definition complete_edge (e : dict) : bool :=
  match get EDGE_SOURCE e, get EDGE_TARGET e with
  | Some _, Some _ => true
  | _, _ => false
  end.

Definition sortable (edges : list dict) : bool :=
  match traverse degree edges with
  | Some ks => comparable ks
  | None => false
  end.

Definition well_formed (local_context : list LocalContextRecord)
    (sub_community_reports : option (list dict)) : bool :=
  sortable (dict_edges (flat_edges (flatten local_context)))
  && forallb (fun e => complete_edge e && finite_id EDGE_ID e)
    (dict_edges (flat_edges (flatten local_context)))
  && forallb
       (fun r =>
          finite_id NODE_ID (node_details r)
          && forallb (finite_id CLAIM_ID) (dropna (or_empty (claim_details r))))
       local_context
  && forallb (finite_id COMMUNITY_ID) (or_empty sub_community_reports).

(** The growing lists hold no NaN identity. *)
Definition clean (st : Growth) : Prop :=
  forallb (finite_id NODE_ID) (sorted_nodes st) = true
  /\ forallb (finite_id EDGE_ID) (sorted_edges st) = true
  /\ forallb (finite_id CLAIM_ID) (sorted_claims st) = true.

(** The stores of a flattened input hold no NaN identity. *)
Definition clean_flat (flat : Flattened) : Prop :=
  (forall k d, store_get k (flat_nodes flat) = Some d ->
               finite_id NODE_ID d = true)
  /\ (forall k l, store_get k (flat_claims flat) = Some l ->
                  forallb (finite_id CLAIM_ID) l = true).

(** The growth step as the specification words it: the claim list of the
    source is appended twice. *)
Definition appends_source_claims_twice (flat : Flattened) (st : Growth)
    (edge : dict) : Prop :=
  forall source st',
    get EDGE_SOURCE edge = Some source ->
    get_or source (flat_claims flat) [] <> [] ->
    grow_step flat st edge = Some st' ->
    sorted_claims st'
    = sorted_claims st ++ get_or source (flat_claims flat) []
        ++ get_or source (flat_claims flat) [].

(** The block of one collection as the specification words it: nothing
    for a collection whose frame is empty, otherwise the header line
    followed by the table. *)
Definition block (header id_column : string) (rows : list dict)
  : option (list string) :=
  if empty (block_frame id_column rows) then Some []
  else
    option_map (fun df => [(header ++ newline ++ to_csv df)%string])
      (normalize_id id_column (block_frame id_column rows)).

(** The blocks of a rendering as the specification words them: those of
    Reports, Entities, Claims and Relationships, in this order. *)
Definition blocks (entities edges claims : list dict)
    (sub_community_reports : option (list dict)) : option (list string) :=
  reports <- block reports_header COMMUNITY_ID (or_empty sub_community_reports) ;;
  entities <- block entities_header NODE_ID entities ;;
  claims <- block claims_header CLAIM_ID claims ;;
  relationships <- block relationships_header EDGE_ID edges ;;
  Some (reports ++ entities ++ claims ++ relationships).

(** The rows of the Relationships table written for a list of edges. *)
Definition relationship_rows (edges : list dict) : list dict :=
  records (block_frame EDGE_ID edges).



(** The rendering: the blocks joined by ["\n\n"]. *)
Definition layout (entities edges claims : list dict)
    (sub_community_reports : option (list dict)) : option string :=
  option_map (String.concat blank_line)
    (blocks entities edges claims sub_community_reports).
End Single.
End Single.

(** ** [sort_context_batch]: one row per community *)
Module Batch.
Section Batch.
Context {schemas : Schema} {pandas : Pandas} {tokenizer : Tokenizer}.

(** One row of [local_contexts]. A cell holding [None] is null. *)
Record ContextRow : Type := {
  community : value;
  node_details : option dict;
  edge_details : option (list (option dict));
  claim_details : option dict;
  all_context : list dict
}.

(** One row of the result. *)
Record ContextResult : Type := {
  community_id : value;
  context_string : string;
  context_size : nat;
  context_exceed_flag : bool;
  all_context_list : list (list dict)
}.

Definition dropna {A : Type} (l : list (option A)) : list A :=
  flat_map (fun o => match o with Some a => [a] | None => [] end) l.

(** [series.explode().dropna().tolist()]: a null cell and an empty list
    explode to one null row, which [dropna] removes. *)
Definition explode_dropna {A : Type} (l : list (option (list (option A))))
  : list A :=
  flat_map (fun c => match c with Some xs => dropna xs | None => [] end) l.

(** The key of [sort_values(by=[EDGE_DEGREE, EDGE_ID])]: the cells of the
    two columns; a [KeyError] when the frame lacks one of them. *)
Definition sort_key (edge : dict) : option (key * key) :=
  d <- get EDGE_DEGREE edge ;;
  i <- get EDGE_ID edge ;;
  Some (key_of d, key_of i).

(** [ascending=[False, True]] with the default [na_position="last"]:
    larger degree first, then smaller id, nulls last in either column. *)
Definition key_leb (a b : key * key) : bool :=
  negb (desc_leb (fst b) (fst a))
  || (desc_leb (fst a) (fst b) && asc_leb (snd a) (snd b)).

Definition keyed_leb (a b : (key * key) * dict) : bool :=
  key_leb (fst a) (fst b).

(** A column is ordered when its cells that are not null are of one kind;
    on a column of numbers and strings the sort raises a [TypeError]. *)
Definition orderable (ks : list key) : bool :=
  one_kind (filter (fun k => negb (is_null_key k)) ks).

Definition sort_values (df : DataFrame) : option DataFrame :=
  keyed <- traverse (fun e => k <- sort_key e ;; Some (k, e)) (records df) ;;
  if orderable (map (fun p => fst (fst p)) keyed)
     && orderable (map (fun p => snd (fst p)) keyed)
  then Some (mkDataFrame (columns df) (map snd (stable_sort keyed_leb keyed)))
  else None.

Definition table (header : string) (rows : list dict) : string :=
  (header ++ newline ++ to_csv (drop_duplicates (frame_of rows)))%string.

Definition _get_context_string (entities edges claims : list dict)
    (existing_contexts : list string) : string :=
  let contexts := existing_contexts in
  let contexts :=
    match entities with
    | [] => contexts
    | _ :: _ => contexts ++ [table entities_header entities]
    end in
  let contexts :=
    match claims with
    | [] => contexts
    | _ :: _ => contexts ++ [table claims_header claims]
    end in
  let contexts :=
    match edges with
    | [] => contexts
    | _ :: _ => contexts ++ [table relationships_header edges]
    end in
  String.concat blank_line contexts.

(** What the renderer appends for one list: nothing for an empty list,
    otherwise its table. *)
Definition table_of (header : string) (rows : list dict) : list string :=
  match rows with
  | [] => []
  | _ :: _ => [table header rows]
  end.

(** The tables of the three lists, in the order in which the renderer
    appends them. *)
Definition tables (entities edges claims : list dict) : list string :=
  table_of entities_header entities ++ table_of claims_header claims
  ++ table_of relationships_header edges.

(** The rows of [sub_community_reports] of this community. *)
Definition matching_reports (sub_community_reports : option DataFrame)
    (name : value) : option (option DataFrame) :=
  match sub_community_reports with
  | None => Some None
  | Some df => reports <- select_eq COMMUNITY_ID name df ;; Some (Some reports)
  end.

(** The seeded block list. *)
Definition seed_contexts (sub_community_reports : option DataFrame)
    (name : value) : option (list string) :=
  reports <- matching_reports sub_community_reports name ;;
  match reports with
  | None => Some []
  | Some reports =>
      if empty reports then Some []
      else Some [(reports_header ++ newline ++ to_csv reports)%string]
  end.

(** The three growing lists of the loop. *)
Record Growth : Type := {
  sorted_nodes : list dict;
  sorted_edges : list dict;
  sorted_claims : list dict
}.

Definition first_record (df : DataFrame) : list dict :=
  match to_dict_records df with
  | [] => []
  | r :: _ => [r]
  end.

(** The body of the growth loop up to the render. *)
Definition grow_step (nodes claims : DataFrame) (st : Growth) (edge : dict)
  : option Growth :=
  source <- get EDGE_SOURCE edge ;;
  target <- get EDGE_TARGET edge ;;
  source_nodes <- select_eq NODE_NAME source nodes ;;
  target_nodes <- select_eq NODE_NAME target nodes ;;
  related_claims <-
    match records claims with
    | [] => Some []
    | _ :: _ =>
        related <- select_isin CLAIM_SUBJECT [source; target] claims ;;
        Some (to_dict_records related)
    end ;;
  Some {| sorted_nodes :=
            sorted_nodes st ++ first_record source_nodes
              ++ first_record target_nodes;
          sorted_edges := sorted_edges st ++ [edge];
          sorted_claims := sorted_claims st ++ related_claims |}.

Definition render (contexts : list string) (st : Growth) : string :=
  _get_context_string (sorted_nodes st) (sorted_edges st) (sorted_claims st)
    contexts.

(** [for _, edge in edges.iterrows(): ...]; the result is the lists and
    [context_string] when the loop is left. *)
Fixpoint grow (nodes claims : DataFrame) (contexts : list string)
    (max_tokens : option Z) (edges : list dict) (st : Growth)
    (context_string : string) : option (Growth * string) :=
  match edges with
  | [] => Some (st, context_string)
  | edge :: rest =>
      st <- grow_step nodes claims st edge ;;
      let new_context_string := render contexts st in
      match budget max_tokens with
      | Some b =>
          if exceeds new_context_string b then Some (st, context_string)
          else grow nodes claims contexts max_tokens rest st new_context_string
      | None =>
          grow nodes claims contexts max_tokens rest st new_context_string
      end
  end.

Definition initial : Growth :=
  {| sorted_nodes := []; sorted_edges := []; sorted_claims := [] |}.

(** The edge frame of a group, exploded, deduplicated and ordered. *)
Definition group_edges (group : list ContextRow) : option DataFrame :=
  let edges :=
    drop_duplicates (frame_of (explode_dropna (map edge_details group))) in
  if empty edges then Some edges else sort_values edges.

Definition group_claims (group : list ContextRow) : DataFrame :=
  drop_duplicates (frame_of (dropna (map claim_details group))).

Definition group_nodes (group : list ContextRow) : DataFrame :=
  drop_duplicates (frame_of (dropna (map node_details group))).

Definition generate_context (sub_community_reports : option DataFrame)
    (max_tokens : option Z) (name : value) (group : list ContextRow)
  : option ContextResult :=
  let claims := group_claims group in
  let nodes := group_nodes group in
  edges <- group_edges group ;;
  contexts <- seed_contexts sub_community_reports name ;;
  final <- grow nodes claims contexts max_tokens (records edges) initial "" ;;
  let context_string := snd final in
  let context_string_len := num_tokens context_string in
  Some {| community_id := name;
          context_string := context_string;
          context_size := context_string_len;
          context_exceed_flag :=
            match budget max_tokens with
            | Some b => Z.of_nat context_string_len >? b
            | None => false
            end;
          all_context_list := map all_context group |}.

(** [a] may stand before [b] in the order of [sort_values]. *)
Definition key_le (a b : dict) : Prop :=
  exists ka kb,
    sort_key a = Some ka /\ sort_key b = Some kb /\ key_leb ka kb = true.


(** The rows of the Relationships table written for a list of edges. *)
Definition relationship_rows (edges : list dict) : list dict :=
  records (drop_duplicates (frame_of edges)).

(** The edges of a group before they are sorted. *)
Definition exploded_edges (group : list ContextRow) : DataFrame :=
  drop_duplicates (frame_of (explode_dropna (map edge_details group))).

(** The lists after the loop body has run on every edge of [edges]. *)
Fixpoint grow_lists (nodes claims : DataFrame) (st : Growth)
    (edges : list dict) : option Growth :=
  match edges with
  | [] => Some st
  | edge :: rest =>
      st <- grow_step nodes claims st edge ;; grow_lists nodes claims st rest
  end.

Definition is_null (v : value) : bool :=
  match v with
  | VNone | VNaN => true
  | _ => false
  end.

(** The distinct community ids that are not null, in order of first
    appearance. *)
Definition distinct_keys (local_contexts : list ContextRow) : list value :=
  dedup value_eq_dec
    (filter (fun k => negb (is_null k)) (map community local_contexts)).

(** [groupby(community_id_column)]: rows with a null key belong to no
    group. *)
Definition group_keys (local_contexts : list ContextRow) : list value :=
  sort_group_keys (distinct_keys local_contexts).

Definition group_of (local_contexts : list ContextRow) (name : value)
  : list ContextRow :=
  filter (fun row => value_eqb (community row) name) local_contexts.

Definition sort_context_batch (local_contexts : list ContextRow)
    (sub_community_reports : option DataFrame) (max_tokens : option Z)
  : option (list ContextResult) :=
  traverse
    (fun name =>
       generate_context sub_community_reports max_tokens name
         (group_of local_contexts name))
    (group_keys local_contexts).
End Batch.
End Batch.

(** ** Instances used in the examples *)
Module Example.
Definition schema : Schema :=
  {| NODE_ID := "node_id"; NODE_NAME := "title";
     EDGE_ID := "edge_id"; EDGE_DEGREE := "degree";
     EDGE_SOURCE := "source"; EDGE_TARGET := "target";
     CLAIM_ID := "claim_id"; CLAIM_SUBJECT := "subject";
     COMMUNITY_ID := "community" |}.

Definition print_cell (v : value) : string :=
  match v with
  | VStr s => s
  | VInt z => NilEmpty.string_of_int (Z.to_int z)
  | VBool true => "True"
  | VBool false => "False"
  | _ => ""
  end.

Definition csv_line (cells : list string) : string :=
  (String.concat "," cells ++ newline)%string.

(** A plain comma-separated writer: a header line, then one line per
    record, no index column and no quoting. *)
Definition write_csv (df : DataFrame) : string :=
  String.concat ""
    (csv_line (columns df)
     :: map (fun r => csv_line (map (fun c => print_cell (cell c r))
                                    (columns df)))
            (records df)).

(** No column is taken for a float column, so no cast is attempted, and
    group keys are sorted in ascending order. *)
Definition pandas : Pandas :=
  {| to_csv := write_csv;
     dtype_is_float := fun _ _ => false;
     astype_int := fun _ df => Some df;
     sort_group_keys :=
       stable_sort (fun a b => asc_leb (key_of a) (key_of b)) |}.

(** One token per character. *)
Definition tokenizer : Tokenizer := {| num_tokens := String.length |}.

Definition edge (id : string) (source target : string) (degree : Z) : dict :=
  [("edge_id", VStr id); ("source", VStr source); ("target", VStr target);
   ("degree", VInt degree)].

Definition node (id : string) (title : string) : dict :=
  [("node_id", VStr id); ("title", VStr title)].

Definition claim (id : string) (subject : string) : dict :=
  [("claim_id", VStr id); ("subject", VStr subject)].

Definition report (community : Z) (summary : string) : dict :=
  [("community", VInt community); ("summary", VStr summary)].

#[local] Existing Instance schema.
#[local] Existing Instance pandas.
#[local] Existing Instance tokenizer.

(** Two nodes with one claim each, joined by one edge. *)
Definition two_nodes : list Single.LocalContextRecord :=
  [ {| Single.node_name := VStr "A";
       Single.node_details := node "1" "A";
       Single.edge_details := Some [Single.PyDict (edge "e1" "A" "B" 5)];
       Single.claim_details := Some [Some (claim "c1" "A")] |};
    {| Single.node_name := VStr "B";
       Single.node_details := node "2" "B";
       Single.edge_details :=
         Some [Single.PyDict (edge "e1" "A" "B" 5); Single.PyVal VNaN];
       Single.claim_details := Some [Some (claim "c2" "B"); None] |} ].

(** An edge without identity of degree 5 and the edge [e1] of degree 1. *)
Definition unnamed_edge_first : list Single.LocalContextRecord :=
  [ {| Single.node_name := VStr "A";
       Single.node_details := node "1" "A";
       Single.edge_details :=
         Some [Single.PyDict (edge "e1" "A" "B" 1);
               Single.PyDict (edge "" "X" "Y" 5)];
       Single.claim_details := None |} ].

(** One node whose only edge has an empty identity and endpoints that
    name no record. *)
Definition unnamed_edge_only : list Single.LocalContextRecord :=
  [ {| Single.node_name := VStr "A";
       Single.node_details := node "1" "A";
       Single.edge_details := Some [Single.PyDict (edge "" "X" "Y" 5)];
       Single.claim_details := None |} ].

(** A community of two nodes, the second without identity. *)
Definition community_one : list Batch.ContextRow :=
  [ {| Batch.community := VInt 1;
       Batch.node_details := Some (node "1" "A");
       Batch.edge_details := Some [Some (edge "e1" "A" "B" 5)];
       Batch.claim_details := Some (claim "c1" "A");
       Batch.all_context := [node "1" "A"] |};
    {| Batch.community := VInt 1;
       Batch.node_details := Some (node "" "B");
       Batch.edge_details := Some [Some (edge "e1" "A" "B" 5); None];
       Batch.claim_details := None;
       Batch.all_context := [node "" "B"] |} ].

(** A community whose rows list no edge. *)
Definition community_two : list Batch.ContextRow :=
  [ {| Batch.community := VInt 2;
       Batch.node_details := Some (node "3" "C");
       Batch.edge_details := Some [];
       Batch.claim_details := None;
       Batch.all_context := [node "3" "C"] |} ].


(** A community of three nodes whose rows list [e3] of degree 5 before
    [e1] of degree 2 and [e2] of degree 5. *)
Definition community_three : list Batch.ContextRow :=
  [ {| Batch.community := VInt 3;
       Batch.node_details := Some (node "1" "A");
       Batch.edge_details :=
         Some [Some (edge "e3" "B" "C" 5); Some (edge "e1" "A" "B" 2)];
       Batch.claim_details := None;
       Batch.all_context := [node "1" "A"] |};
    {| Batch.community := VInt 3;
       Batch.node_details := Some (node "2" "B");
       Batch.edge_details :=
         Some [Some (edge "e1" "A" "B" 2); Some (edge "e2" "A" "C" 5)];
       Batch.claim_details := None;
       Batch.all_context := [node "2" "B"] |};
    {| Batch.community := VInt 3;
       Batch.node_details := Some (node "3" "C");
       Batch.edge_details := Some [Some (edge "e2" "A" "C" 5)];
       Batch.claim_details := None;
       Batch.all_context := [node "3" "C"] |} ].

(** Reports: the report of community 1 twice, that of community 2 once. *)
Definition reports : DataFrame :=
  mkDataFrame ["community"; "summary"]
    [report 1 "x"; report 1 "x"; report 2 "y"].



Definition lines (l : list string) : string :=
  String.concat "" (map (fun s => (s ++ newline)%string) l).
End Example.

(** * Properties *)

Unset Implicit Arguments.

(** ** Lists without repeated elements *)
Section DedupFacts.
Variable A : Type.
Variable eq_dec : forall a b : A, {a = b} + {a <> b}.

Local Abbreviation dedupA := (dedup eq_dec).
Local Abbreviation differsA := (differs eq_dec).

Lemma differs_true (x y : A) : differsA x y = true <-> x <> y.
Proof.
  unfold differs. destruct (eq_dec x y); split; intros; congruence.
Qed.

Lemma differs_refl (x : A) : differsA x x = false.
Proof.
  unfold differs. destruct (eq_dec x x); congruence.
Qed.

Lemma filter_comm (p q : A -> bool) (l : list A) :
  filter p (filter q l) = filter q (filter p l).
Proof.
  induction l as [ | x l IH ]; simpl; [ reflexivity | ].
  destruct (q x) eqn:Hq, (p x) eqn:Hp; simpl; rewrite ?Hq, ?Hp, IH;
    reflexivity.
Qed.

Lemma filter_and (p q : A -> bool) (l : list A) :
  filter p (filter q l) = filter (fun x => q x && p x) l.
Proof.
  induction l as [ | x l IH ]; simpl; [ reflexivity | ].
  destruct (q x); simpl; [ destruct (p x) | ]; rewrite IH; reflexivity.
Qed.

(** Removing [x] first changes nothing for a filter that rejects [x]. *)
Lemma filter_differs_absorb (p : A -> bool) (x : A) (l : list A) :
  p x = false -> filter p (filter (differsA x) l) = filter p l.
Proof.
  intros Hp. induction l as [ | y l IH ]; simpl; [ reflexivity | ].
  unfold differs at 1. destruct (eq_dec x y) as [ <- | Hxy ]; simpl.
  - rewrite Hp. exact IH.
  - rewrite IH. reflexivity.
Qed.

Lemma dedup_filter (p : A -> bool) (l : list A) :
  dedupA (filter p l) = filter p (dedupA l).
Proof.
  induction l as [ | x l IH ]; simpl; [ reflexivity | ].
  destruct (p x) eqn:Hp; simpl.
  - rewrite IH. f_equal. apply filter_comm.
  - rewrite IH. symmetry. apply filter_differs_absorb. exact Hp.
Qed.

Lemma In_dedup (x : A) (l : list A) : In x (dedupA l) <-> In x l.
Proof.
  induction l as [ | y l IH ]; simpl; [ tauto | ].
  rewrite filter_In, IH, differs_true.
  destruct (eq_dec y x); intuition congruence.
Qed.

Lemma NoDup_filter (p : A -> bool) (l : list A) :
  NoDup l -> NoDup (filter p l).
Proof.
  induction 1 as [ | x l Hx Hl IH ]; simpl; [ constructor | ].
  destruct (p x); [ constructor | ]; try exact IH.
  rewrite filter_In. tauto.
Qed.

Lemma NoDup_dedup (l : list A) : NoDup (dedupA l).
Proof.
  induction l as [ | x l IH ]; simpl; constructor.
  - rewrite filter_In, differs_refl. intros [ _ H ]. discriminate.
  - apply NoDup_filter. exact IH.
Qed.

Lemma dedup_nil_iff (l : list A) : dedupA l = [] <-> l = [].
Proof.
  destruct l; simpl; split; intros; congruence.
Qed.

Lemma absent_cons (x : A) (a : list A) (y : A) :
  absent eq_dec (x :: a) y = absent eq_dec a y && differsA x y.
Proof.
  unfold absent, differs.
  destruct (in_dec eq_dec y (x :: a)) as [ Hin | Hout ];
    destruct (in_dec eq_dec y a) as [ Hin' | Hout' ];
    destruct (eq_dec x y) as [ Heq | Hne ]; simpl in *; try reflexivity;
    exfalso; intuition congruence.
Qed.

Lemma dedup_app (a b : list A) :
  dedupA (a ++ b) = dedupA a ++ filter (absent eq_dec a) (dedupA b).
Proof.
  induction a as [ | x a IH ]; simpl.
  - symmetry. apply forallb_filter_id. apply forallb_forall. reflexivity.
  - f_equal. rewrite IH, filter_app. f_equal.
    rewrite filter_and. apply filter_ext. intros y. symmetry. apply absent_cons.
Qed.

Lemma filter_absent_self (a l : list A) :
  filter (absent eq_dec a) (a ++ l) = filter (absent eq_dec a) l.
Proof.
  rewrite filter_app.
  assert (Hnil : forall l', incl l' a -> filter (absent eq_dec a) l' = []).
  { induction l' as [ | y l' IH ]; intros Hincl; simpl; [ reflexivity | ].
    unfold absent at 1. destruct (in_dec eq_dec y a) as [ _ | Hout ].
    - apply IH. intros z Hz. apply Hincl. right. exact Hz.
    - exfalso. apply Hout, Hincl. left. reflexivity. }
  rewrite (Hnil a (incl_refl a)). reflexivity.
Qed.
End DedupFacts.

Section DedupMap.
Variables A B : Type.
Variable eqA : forall a b : A, {a = b} + {a <> b}.
Variable eqB : forall a b : B, {a = b} + {a <> b}.

Lemma filter_map_differs (f : A -> B) (x : A) (l : list A) :
  filter (differs eqB (f x)) (map f (filter (differs eqA x) l))
  = filter (differs eqB (f x)) (map f l).
Proof.
  induction l as [ | y l IH ]; simpl; [ reflexivity | ].
  unfold differs at 2. destruct (eqA x y) as [ <- | Hxy ]; simpl.
  - rewrite differs_refl. exact IH.
  - rewrite IH. reflexivity.
Qed.

(** Duplicates of the argument never show after the image is
    deduplicated. *)
Lemma dedup_map_dedup (f : A -> B) (l : list A) :
  dedup eqB (map f (dedup eqA l)) = dedup eqB (map f l).
Proof.
  induction l as [ | x l IH ]; simpl; [ reflexivity | ].
  f_equal. rewrite <- IH, <- !(dedup_filter _ eqB). f_equal.
  apply filter_map_differs.
Qed.

Lemma filter_flat_map_absent (g : A -> list B) (x : A) (l : list A) :
  filter (absent eqB (g x)) (flat_map g (filter (differs eqA x) l))
  = filter (absent eqB (g x)) (flat_map g l).
Proof.
  induction l as [ | y l IH ]; simpl; [ reflexivity | ].
  unfold differs at 1. destruct (eqA x y) as [ <- | Hxy ]; simpl.
  - rewrite filter_absent_self. exact IH.
  - rewrite !filter_app, IH. reflexivity.
Qed.

Lemma dedup_flat_map_dedup (g : A -> list B) (l : list A) :
  dedup eqB (flat_map g (dedup eqA l)) = dedup eqB (flat_map g l).
Proof.
  induction l as [ | x l IH ]; simpl; [ reflexivity | ].
  rewrite !dedup_app. f_equal.
  rewrite <- IH, <- !(dedup_filter _ eqB). f_equal.
  apply filter_flat_map_absent.
Qed.
End DedupMap.

(** ** Frames *)

Lemma frame_of_dedup (rows : list dict) :
  drop_duplicates (frame_of (dedup dict_eq_dec rows))
  = drop_duplicates (frame_of rows).
Proof.
  unfold drop_duplicates, frame_of. simpl.
  rewrite dedup_flat_map_dedup, dedup_map_dedup. reflexivity.
Qed.

Lemma records_frame_of_NoDup (rows : list dict) :
  NoDup (records (drop_duplicates (frame_of rows))).
Proof.
  apply NoDup_dedup.
Qed.


Lemma get_Some_key (c : string) (d : dict) (v : value) :
  get c d = Some v -> In c (keys d).
Proof.
  induction d as [ | [ k w ] d IH ]; simpl; [ discriminate | ].
  destruct (string_dec c k) as [ -> | Hne ]; [ tauto | ].
  intros H. right. apply IH. exact H.
Qed.

(** Re-indexing keeps the cell of every column of the frame. *)
Lemma get_reindex (c : string) (cols : list string) (d : dict) :
  In c cols -> get c (reindex cols d) = Some (cell c d).
Proof.
  unfold reindex. induction cols as [ | k cols IH ]; simpl; [ tauto | ].
  destruct (string_dec c k) as [ -> | Hne ]; [ reflexivity | ].
  intros [ Heq | Hin ]; [ congruence | apply IH; exact Hin ].
Qed.

Lemma get_reindex_present (c : string) (cols : list string) (d : dict)
    (v : value) :
  In c cols -> get c d = Some v -> get c (reindex cols d) = Some v.
Proof.
  intros Hin Hget. rewrite get_reindex by exact Hin. unfold cell.
  rewrite Hget. reflexivity.
Qed.

(** ** The single-community renderer *)
Section SingleRenderer.
Context {schemas : Schema} {pandas : Pandas} {tokenizer : Tokenizer}.

(** A stanza appends the block of its collection. *)
Lemma append_block_block (header id_column : string) (rows : list dict)
    (contexts : list string) :
  Single.append_block header id_column rows contexts
  = (b <- Single.block header id_column rows ;; Some (contexts ++ b)).
Proof.
  unfold Single.append_block, Single.block.
  destruct (empty (Single.block_frame id_column rows)); simpl.
  - rewrite app_nil_r. reflexivity.
  - destruct (Single.normalize_id id_column (Single.block_frame id_column rows));
      reflexivity.
Qed.

(** The truthiness guards of the source are subsumed by the test on the
    frame, so the stanzas are the four blocks in their fixed order. *)
Lemma get_context_string_layout (entities edges claims : list dict)
    (reports : option (list dict)) :
  Single._get_context_string entities edges claims reports
  = Single.layout entities edges claims reports.
Proof.
  unfold Single._get_context_string, Single.layout, Single.blocks.
  assert (Hreports :
    match reports with
    | Some ((_ :: _) as rs) =>
        Single.append_block reports_header COMMUNITY_ID rs []
    | _ => Some []
    end = (b <- Single.block reports_header COMMUNITY_ID
                  (Single.or_empty reports) ;; Some b)).
  { destruct reports as [ [ | r rs ] | ]; simpl; try reflexivity.
    rewrite append_block_block.
    destruct (Single.block reports_header COMMUNITY_ID (r :: rs)); reflexivity. }
  rewrite Hreports. clear Hreports.
  destruct (Single.block reports_header COMMUNITY_ID (Single.or_empty reports))
    as [ rb | ]; simpl; [ | reflexivity ].
  rewrite append_block_block.
  destruct (Single.block entities_header NODE_ID entities) as [ eb | ]; simpl;
    [ | reflexivity ].
  assert (Hclaims :
    match claims with
    | [] => Some (rb ++ eb)
    | _ :: _ => Single.append_block claims_header CLAIM_ID claims (rb ++ eb)
    end = (b <- Single.block claims_header CLAIM_ID claims ;;
           Some ((rb ++ eb) ++ b))).
  { destruct claims as [ | c cs ].
    - simpl. rewrite app_nil_r. reflexivity.
    - apply append_block_block. }
  rewrite Hclaims. clear Hclaims.
  destruct (Single.block claims_header CLAIM_ID claims) as [ cb | ]; simpl;
    [ | reflexivity ].
  rewrite append_block_block.
  destruct (Single.block relationships_header EDGE_ID edges) as [ gb | ]; simpl;
    [ | reflexivity ].
  rewrite <- !app_assoc. reflexivity.
Qed.

Lemma layout_all_empty (entities edges claims : list dict)
    (reports : option (list dict)) :
  empty (Single.block_frame COMMUNITY_ID (Single.or_empty reports)) = true ->
  empty (Single.block_frame NODE_ID entities) = true ->
  empty (Single.block_frame CLAIM_ID claims) = true ->
  empty (Single.block_frame EDGE_ID edges) = true ->
  Single.layout entities edges claims reports = Some "".
Proof.
  intros Hr He Hc Hg. unfold Single.layout, Single.blocks, Single.block.
  rewrite Hr, He, Hc, Hg. reflexivity.
Qed.

(** The frame of a collection does not change when repeated records are
    removed from the collection first. *)
Lemma block_frame_dedup (id_column : string) (rows : list dict) :
  Single.block_frame id_column (dedup dict_eq_dec rows)
  = Single.block_frame id_column rows.
Proof.
  unfold Single.block_frame. rewrite <- dedup_filter. apply frame_of_dedup.
Qed.

Lemma block_dedup (header id_column : string) (rows : list dict) :
  Single.block header id_column (dedup dict_eq_dec rows)
  = Single.block header id_column rows.
Proof.
  unfold Single.block. rewrite block_frame_dedup. reflexivity.
Qed.

Lemma columns_block_frame (id_column : string) (d : dict) (l : list dict) :
  In d l -> has_identity id_column d = true ->
  In id_column (columns (Single.block_frame id_column l)).
Proof.
  intros Hd Hid. unfold Single.block_frame, drop_duplicates. simpl.
  apply In_dedup, in_flat_map. exists d. split.
  - apply filter_In. split; assumption.
  - unfold has_identity in Hid.
    destruct (get id_column d) as [ v | ] eqn:Hget; [ | discriminate ].
    eapply get_Some_key; eassumption.
Qed.

(** Every row of a rendered frame is the re-indexed image of a record that
    passed the identity guard, and still carries that identity. *)
Lemma block_frame_rows (id_column : string) (rows : list dict) (r : dict) :
  In r (records (Single.block_frame id_column rows)) ->
  has_identity id_column r = true
  /\ exists d, In d rows /\ has_identity id_column d = true
       /\ r = reindex (columns (Single.block_frame id_column rows)) d.
Proof.
  intros Hr.
  pose proof Hr as Hr'.
  unfold Single.block_frame, drop_duplicates in Hr'. simpl in Hr'.
  apply In_dedup, in_map_iff in Hr'. destruct Hr' as [ d [ Heq Hd ] ].
  apply filter_In in Hd. destruct Hd as [ Hd Hid ].
  assert (Hcol : In id_column (columns (Single.block_frame id_column rows))).
  { eapply columns_block_frame; eassumption. }
  split.
  - subst r. unfold has_identity in Hid |- *.
    destruct (get id_column d) as [ v | ] eqn:Hget; [ | discriminate ].
    erewrite get_reindex_present; [ exact Hid | exact Hcol | exact Hget ].
  - exists d. repeat split; try assumption. symmetry. exact Heq.
Qed.
End SingleRenderer.

(** ** Stable insertion sort *)
Section StableSortFacts.
Variable A : Type.
Variable leb : A -> A -> bool.

Local Abbreviation sortA := (stable_sort leb).
Local Abbreviation insertA := (insert leb).

Lemma insert_perm (x : A) (l : list A) :
  Permutation (insertA x l) (x :: l).
Proof.
  induction l as [ | y l IH ]; simpl; [ reflexivity | ].
  destruct (leb x y); [ reflexivity | ].
  rewrite IH. apply perm_swap.
Qed.

Lemma stable_sort_perm (l : list A) : Permutation (sortA l) l.
Proof.
  induction l as [ | x l IH ]; simpl; [ reflexivity | ].
  rewrite insert_perm, IH. reflexivity.
Qed.



Hypothesis leb_total : forall x y, leb x y = false -> leb y x = true.
Hypothesis leb_trans :
  forall x y z, leb x y = true -> leb y z = true -> leb x z = true.

Local Abbreviation le := (fun x y => leb x y = true).

Lemma insert_sorted (x : A) (l : list A) :
  StronglySorted le l -> StronglySorted le (insertA x l).
Proof.
  induction 1 as [ | y l Hl IH Hy ]; simpl.
  - constructor; constructor.
  - destruct (leb x y) eqn:Hxy.
    + constructor; [ constructor; assumption | ].
      constructor; [ exact Hxy | ].
      eapply Forall_impl; [ | exact Hy ].
      intros z Hz. simpl in *. eapply leb_trans; eassumption.
    + constructor; [ exact IH | ].
      eapply Permutation_Forall.
      * symmetry. apply insert_perm.
      * constructor; [ apply leb_total; exact Hxy | exact Hy ].
Qed.

Lemma stable_sort_sorted (l : list A) : StronglySorted le (sortA l).
Proof.
  induction l as [ | x l IH ]; simpl; [ constructor | ].
  apply insert_sorted. exact IH.
Qed.
End StableSortFacts.

(** ** Subsequences *)
Section Subseq.
Variable A : Type.

Lemma In_firstn (n : nat) (l : list A) (x : A) :
  In x (firstn n l) -> In x l.
Proof.
  intros H. rewrite <- (firstn_skipn n l). apply in_or_app. left. exact H.
Qed.


Lemma subseq_In (l1 l2 : list A) (x : A) :
  subseq l1 l2 -> In x l1 -> In x l2.
Proof.
  induction 1 as [ | y l1 l2 H IH | y l1 l2 H IH ]; simpl; intuition.
Qed.







End Subseq.

(** ** Order of a list *)
Section Order.
Variable A : Type.
Variable R : A -> A -> Prop.


Lemma StronglySorted_filter (p : A -> bool) (l : list A) :
  StronglySorted R l -> StronglySorted R (filter p l).
Proof.
  induction 1 as [ | x l Hl IH Hx ]; simpl; [ constructor | ].
  destruct (p x); [ | exact IH ].
  constructor; [ exact IH | ].
  apply Forall_forall. intros y Hy. apply filter_In in Hy.
  rewrite Forall_forall in Hx. apply Hx. tauto.
Qed.




(** In a sorted list, an element that may not stand after another stands
    before it. *)
Lemma StronglySorted_ordered (l : list A) (a b : A) :
  StronglySorted R l -> before a b l -> R a b.
Proof.
  unfold before. intros Hl. induction Hl as [ | x l Hl IH Hx ]; intros H.
  - inversion H.
  - inversion H as [ | ? ? ? Hskip | ? ? ? Hkeep ]; subst.
    + apply IH. exact Hskip.
    + rewrite Forall_forall in Hx. apply Hx.
      eapply subseq_In; [ exact Hkeep | left; reflexivity ].
Qed.

End Order.

(** ** The order of sort keys *)

Lemma ascii_compare_trans (a b c : ascii) (r : comparison) :
  Ascii.compare a b = r -> Ascii.compare b c = r -> Ascii.compare a c = r.
Proof.
  unfold Ascii.compare. destruct r; intros H1 H2.
  - apply N.compare_eq_iff in H1. apply N.compare_eq_iff in H2.
    apply N.compare_eq_iff. congruence.
  - apply N.compare_lt_iff in H1. apply N.compare_lt_iff in H2.
    apply N.compare_lt_iff. eapply N.lt_trans; eassumption.
  - apply N.compare_gt_iff in H1. apply N.compare_gt_iff in H2.
    apply N.compare_gt_iff. eapply N.lt_trans; eassumption.
Qed.

Lemma string_compare_not_gt_trans (s1 s2 s3 : string) :
  String.compare s1 s2 <> Gt -> String.compare s2 s3 <> Gt ->
  String.compare s1 s3 <> Gt.
Proof.
  revert s2 s3. induction s1 as [ | a s1 IH ]; intros s2 s3 H12 H23.
  - destruct s3; simpl; discriminate.
  - destruct s2 as [ | b s2 ]; [ simpl in H12; congruence | ].
    destruct s3 as [ | c s3 ]; [ simpl in H23; congruence | ].
    simpl in *.
    destruct (Ascii.compare a b) eqn:Hab; [ | | congruence ];
      destruct (Ascii.compare b c) eqn:Hbc; try congruence.
    + rewrite (ascii_compare_trans _ _ _ _ Hab Hbc). eapply IH; eassumption.
    + apply Ascii.compare_eq_iff in Hab. subst b. rewrite Hbc. discriminate.
    + apply Ascii.compare_eq_iff in Hbc. subst c. rewrite Hab. discriminate.
    + rewrite (ascii_compare_trans _ _ _ _ Hab Hbc). discriminate.
Qed.

Lemma string_leb_trans (s1 s2 s3 : string) :
  String.leb s1 s2 = true -> String.leb s2 s3 = true ->
  String.leb s1 s3 = true.
Proof.
  unfold String.leb. intros H12 H23.
  pose proof (string_compare_not_gt_trans s1 s2 s3) as H.
  destruct (String.compare s1 s2); try discriminate;
    destruct (String.compare s2 s3); try discriminate;
    destruct (String.compare s1 s3); try reflexivity;
    exfalso; apply H; congruence.
Qed.

Lemma string_leb_false (s1 s2 : string) :
  String.leb s1 s2 = false -> String.leb s2 s1 = true.
Proof.
  intros H. destruct (String.leb_total s1 s2) as [ H' | H' ];
    [ congruence | exact H' ].
Qed.

(** Two numbers compare alike on every exponent below their own. *)
Lemma num_leb_at (k m1 e1 m2 e2 : Z) :
  k <= e1 -> k <= e2 ->
  (num_leb m1 e1 m2 e2 = true <-> m1 * 2 ^ (e1 - k) <= m2 * 2 ^ (e2 - k)).
Proof.
  intros H1 H2. unfold num_leb. rewrite Z.leb_le.
  set (e := Z.min e1 e2).
  assert (He1 : e <= e1) by apply Z.le_min_l.
  assert (He2 : e <= e2) by apply Z.le_min_r.
  assert (Hk : k <= e) by (apply Z.min_glb; assumption).
  replace (e1 - k) with ((e1 - e) + (e - k)) by lia.
  replace (e2 - k) with ((e2 - e) + (e - k)) by lia.
  rewrite !Z.pow_add_r by lia. rewrite !Z.mul_assoc.
  assert (Hpos : 0 < 2 ^ (e - k)) by (apply Z.pow_pos_nonneg; lia).
  split; intros H.
  - apply Z.mul_le_mono_nonneg_r; [ lia | exact H ].
  - eapply Z.mul_le_mono_pos_r; [ exact Hpos | exact H ].
Qed.

Lemma num_leb_total (m1 e1 m2 e2 : Z) :
  num_leb m1 e1 m2 e2 = false -> num_leb m2 e2 m1 e1 = true.
Proof.
  unfold num_leb. rewrite (Z.min_comm e2 e1), Z.leb_gt, Z.leb_le. lia.
Qed.

Lemma num_leb_trans (m1 e1 m2 e2 m3 e3 : Z) :
  num_leb m1 e1 m2 e2 = true -> num_leb m2 e2 m3 e3 = true ->
  num_leb m1 e1 m3 e3 = true.
Proof.
  set (k := Z.min e1 (Z.min e2 e3)).
  assert (H1 : k <= e1) by apply Z.le_min_l.
  assert (H2 : k <= e2)
    by (etransitivity; [ apply Z.le_min_r | apply Z.le_min_l ]).
  assert (H3 : k <= e3)
    by (etransitivity; [ apply Z.le_min_r | apply Z.le_min_r ]).
  rewrite (num_leb_at k _ _ _ _ H1 H2), (num_leb_at k _ _ _ _ H2 H3),
    (num_leb_at k _ _ _ _ H1 H3).
  apply Z.le_trans.
Qed.

Lemma asc_leb_total (a b : key) : asc_leb a b = false -> asc_leb b a = true.
Proof.
  destruct a, b; simpl; try congruence.
  - apply num_leb_total.
  - apply string_leb_false.
Qed.

Lemma asc_leb_trans (a b c : key) :
  asc_leb a b = true -> asc_leb b c = true -> asc_leb a c = true.
Proof.
  destruct a, b, c; simpl; try congruence.
  - apply num_leb_trans.
  - apply string_leb_trans.
Qed.

Lemma desc_leb_total (a b : key) : desc_leb a b = false -> desc_leb b a = true.
Proof.
  destruct a, b; simpl; try congruence.
  - apply num_leb_total.
  - apply string_leb_false.
Qed.

Lemma desc_leb_trans (a b c : key) :
  desc_leb a b = true -> desc_leb b c = true -> desc_leb a c = true.
Proof.
  destruct a, b, c; simpl; try congruence.
  - intros H1 H2. eapply num_leb_trans; eassumption.
  - intros H1 H2. eapply string_leb_trans; eassumption.
Qed.


Lemma desc_leb_py (a b : key) :
  is_num a = true /\ is_num b = true \/ is_str a = true /\ is_str b = true ->
  desc_leb a b = py_leb b a.
Proof.
  destruct a, b; simpl; intros [ [ H1 H2 ] | [ H1 H2 ] ];
    try discriminate; reflexivity.
Qed.

Lemma one_kind_pair (ks : list key) (a b : key) :
  one_kind ks = true -> In a ks -> In b ks ->
  is_num a = true /\ is_num b = true \/ is_str a = true /\ is_str b = true.
Proof.
  unfold one_kind. rewrite orb_true_iff, !forallb_forall.
  intros [ H | H ] Ha Hb; [ left | right ]; split; apply H; assumption.
Qed.



Lemma key_leb_total (a b : key * key) :
  Batch.key_leb a b = false -> Batch.key_leb b a = true.
Proof.
  unfold Batch.key_leb. destruct a as [ da ia ], b as [ db ib ]. simpl.
  destruct (desc_leb db da) eqn:H1, (desc_leb da db) eqn:H2; simpl;
    try congruence.
  apply asc_leb_total.
Qed.

Lemma key_leb_trans (a b c : key * key) :
  Batch.key_leb a b = true -> Batch.key_leb b c = true ->
  Batch.key_leb a c = true.
Proof.
  unfold Batch.key_leb. destruct a as [ da ia ], b as [ db ib ], c as [ dc ic ].
  simpl.
  destruct (desc_leb db da) eqn:Hba, (desc_leb da db) eqn:Hab,
    (desc_leb dc db) eqn:Hcb, (desc_leb db dc) eqn:Hbc; simpl;
    try congruence; intros H1 H2;
    try (apply desc_leb_total in Hba; congruence);
    try (apply desc_leb_total in Hcb; congruence).
  - rewrite (desc_leb_trans _ _ _ Hab Hbc), (asc_leb_trans _ _ _ H1 H2).
    simpl. apply orb_true_r.
  - destruct (desc_leb dc da) eqn:Hca; [ | reflexivity ].
    rewrite (desc_leb_trans _ _ _ Hca Hab) in Hcb. discriminate.
  - destruct (desc_leb dc da) eqn:Hca; [ | reflexivity ].
    rewrite (desc_leb_trans _ _ _ Hbc Hca) in Hba. discriminate.
  - destruct (desc_leb dc da) eqn:Hca; [ | reflexivity ].
    rewrite (desc_leb_trans _ _ _ Hbc Hca) in Hba. discriminate.
Qed.


(** ** Keyed lists *)
Section Keyed.
Variables A K : Type.
Variable key : A -> option K.

Local Abbreviation attach := (fun e => k <- key e ;; Some (k, e)).

Lemma traverse_keyed (l : list A) (kl : list (K * A)) :
  traverse attach l = Some kl ->
  map snd kl = l /\ Forall (fun p => key (snd p) = Some (fst p)) kl.
Proof.
  revert kl. induction l as [ | x l IH ]; simpl; intros kl H.
  - inversion H. split; constructor.
  - destruct (key x) as [ k | ] eqn:Hk; simpl in H; [ | discriminate ].
    destruct (traverse attach l) as [ kl' | ]; simpl in H; [ | discriminate ].
    inversion H. subst kl. destruct (IH kl' eq_refl) as [ Hmap Hall ].
    simpl. split; [ f_equal; exact Hmap | ].
    constructor; [ exact Hk | exact Hall ].
Qed.

Lemma traverse_keyed_total (l : list A) :
  Forall (fun e => key e <> None) l -> exists kl, traverse attach l = Some kl.
Proof.
  induction 1 as [ | x l Hx Hl [ kl IH ] ]; simpl; [ eexists; reflexivity | ].
  destruct (key x) as [ k | ]; [ | congruence ]. simpl. rewrite IH. simpl.
  eexists. reflexivity.
Qed.


Lemma StronglySorted_map_snd (R : K * A -> K * A -> Prop)
    (R' : A -> A -> Prop) (kl : list (K * A)) :
  (forall a b, In a kl -> In b kl -> R a b -> R' (snd a) (snd b)) ->
  StronglySorted R kl -> StronglySorted R' (map snd kl).
Proof.
  intros Himp Hs. induction Hs as [ | x kl Hs IH Hx ]; simpl; constructor.
  - apply IH. intros a b Ha Hb. apply Himp; right; assumption.
  - apply Forall_forall. intros y Hy. apply in_map_iff in Hy.
    destruct Hy as [ z [ <- Hz ] ]. rewrite Forall_forall in Hx.
    apply Himp; [ left; reflexivity | right; exact Hz | apply Hx; exact Hz ].
Qed.
End Keyed.

(** ** The single-community loops *)
Section SingleLoop.
Context {schemas : Schema} {pandas : Pandas} {tokenizer : Tokenizer}.

Lemma degree_desc_total (x y : key * dict) :
  Single.degree_desc x y = false -> Single.degree_desc y x = true.
Proof. apply desc_leb_total. Qed.

Lemma degree_desc_trans (x y z : key * dict) :
  Single.degree_desc x y = true -> Single.degree_desc y z = true ->
  Single.degree_desc x z = true.
Proof. apply desc_leb_trans. Qed.

(** What a run of the sort that returns has done. *)
Lemma sort_by_degree_inv (edges sorted : list dict) :
  Single.sort_by_degree edges = Some sorted ->
  exists kl,
    map snd kl = edges
    /\ Forall (fun p => Single.degree (snd p) = Some (fst p)) kl
    /\ Single.comparable (map fst kl) = true
    /\ sorted = map snd (stable_sort Single.degree_desc kl).
Proof.
  unfold Single.sort_by_degree. intros H.
  destruct (traverse _ edges) as [ kl | ] eqn:Hkl; simpl in H; [ | discriminate ].
  destruct (Single.comparable (map fst kl)) eqn:Hc; [ | discriminate ].
  inversion H. apply traverse_keyed in Hkl. destruct Hkl as [ Hmap Hall ].
  exists kl. auto.
Qed.

Lemma sort_by_degree_perm (edges sorted : list dict) :
  Single.sort_by_degree edges = Some sorted -> Permutation sorted edges.
Proof.
  intros H. destruct (sort_by_degree_inv _ _ H) as [ kl [ <- [ _ [ _ -> ] ] ] ].
  apply Permutation_map, stable_sort_perm.
Qed.

Lemma sort_by_degree_sorted (edges sorted : list dict) :
  Single.sort_by_degree edges = Some sorted ->
  StronglySorted Single.degree_ge sorted.
Proof.
  intros H.
  destruct (sort_by_degree_inv _ _ H) as [ kl [ _ [ Hall [ Hc -> ] ] ] ].
  assert (Hs : StronglySorted (fun a b => Single.degree_desc a b = true)
                 (stable_sort Single.degree_desc kl)).
  { apply stable_sort_sorted;
      [ exact degree_desc_total | exact degree_desc_trans ]. }
  assert (Hperm : Permutation (stable_sort Single.degree_desc kl) kl)
    by apply stable_sort_perm.
  assert (Hall' : Forall (fun p => Single.degree (snd p) = Some (fst p))
                    (stable_sort Single.degree_desc kl)).
  { eapply Permutation_Forall; [ symmetry; exact Hperm | exact Hall ]. }
  destruct kl as [ | x [ | y kl ] ].
  - simpl. constructor.
  - simpl. constructor; constructor.
  - eapply StronglySorted_map_snd; [ | exact Hs ].
    rewrite Forall_forall in Hall'.
    intros a b Ha Hb Hab. exists (fst a), (fst b).
    repeat split; [ apply Hall'; exact Ha | apply Hall'; exact Hb | ].
    unfold Single.degree_desc in Hab. rewrite <- desc_leb_py; [ exact Hab | ].
    eapply one_kind_pair; [ exact Hc | | ]; apply in_map;
      eapply Permutation_in; try exact Hperm; assumption.
Qed.



Lemma sort_by_degree_total (edges : list dict) :
  Single.sortable edges = true ->
  exists sorted, Single.sort_by_degree edges = Some sorted.
Proof.
  unfold Single.sortable, Single.sort_by_degree. intros H.
  destruct (traverse Single.degree edges) as [ ks | ] eqn:Hks;
    [ | discriminate ].
  assert (Hkeyed : forall l ks,
            traverse Single.degree l = Some ks ->
            exists kl,
              traverse (fun e => d <- Single.degree e ;; Some (d, e)) l
              = Some kl /\ map fst kl = ks).
  { induction l as [ | e l IH ]; simpl; intros ks0 H0.
    - inversion H0. exists []. auto.
    - destruct (Single.degree e) as [ d | ]; simpl in *; [ | discriminate ].
      destruct (traverse Single.degree l) as [ ks1 | ]; simpl in *;
        [ | discriminate ].
      destruct (IH ks1 eq_refl) as [ kl [ -> <- ] ]. simpl.
      inversion H0. eexists. split; reflexivity. }
  destruct (Hkeyed _ _ Hks) as [ kl [ -> <- ] ]. simpl. rewrite H.
  eexists. reflexivity.
Qed.

(** *** The growth loop *)

Lemma grow_lists_edges (flat : Single.Flattened) (edges : list dict)
    (st st' : Single.Growth) :
  Single.grow_lists flat st edges = Some st' ->
  Single.sorted_edges st' = Single.sorted_edges st ++ edges.
Proof.
  revert st. induction edges as [ | e edges IH ]; simpl; intros st H.
  - inversion H. rewrite app_nil_r. reflexivity.
  - destruct (Single.grow_step flat st e) as [ st1 | ] eqn:Hstep; simpl in H;
      [ | discriminate ].
    rewrite (IH _ H). unfold Single.grow_step in Hstep.
    destruct (get EDGE_SOURCE e); simpl in Hstep; [ | discriminate ].
    destruct (get EDGE_TARGET e); simpl in Hstep; [ | discriminate ].
    inversion Hstep. simpl. rewrite <- app_assoc. reflexivity.
Qed.

(** When the loop is left, the lists are those of a prefix of the edges:
    all of them, or up to the step whose render exceeded the budget.  The
    accepted string is the incoming one or the render of a prefix. *)
Lemma grow_inv (flat : Single.Flattened) (reports : option (list dict))
    (max_tokens : option Z) (edges : list dict) (st st' : Single.Growth)
    (cs cs' : string) :
  Single.grow flat reports max_tokens edges st cs = Some (st', cs') ->
  (exists k, Single.grow_lists flat st (firstn k edges) = Some st'
     /\ (firstn k edges = edges
         \/ exists s b, budget max_tokens = Some b
              /\ Single.render reports st' = Some s /\ exceeds s b = true))
  /\ (cs' = cs
      \/ exists j stj, Single.grow_lists flat st (firstn j edges) = Some stj
           /\ Single.render reports stj = Some cs').
Proof.
  revert st cs. induction edges as [ | e edges IH ]; simpl; intros st cs H.
  - inversion H. subst. split; [ exists 0%nat; simpl; auto | left; reflexivity ].
  - destruct (Single.grow_step flat st e) as [ st1 | ] eqn:Hstep; simpl in H;
      [ | discriminate ].
    assert (Hcons : forall n, Single.grow_lists flat st (firstn (S n) (e :: edges))
                      = Single.grow_lists flat st1 (firstn n edges)).
    { intros n. simpl. rewrite Hstep. reflexivity. }
    destruct (budget max_tokens) as [ b | ] eqn:Hb.
    + destruct (Single.render reports st1) as [ s | ] eqn:Hs; simpl in H;
        [ | discriminate ].
      destruct (exceeds s b) eqn:Hex.
      * inversion H. subst. split; [ | left; reflexivity ].
        exists 1%nat. rewrite Hcons. simpl. split; [ reflexivity | ].
        right. exists s, b. auto.
      * destruct (IH _ _ H) as [ [ k [ Hk Hend ] ] Hcs ]. split.
        -- exists (S k). rewrite Hcons. split; [ exact Hk | ].
           destruct Hend as [ Hall | Hbreak ]; [ left | right; exact Hbreak ].
           simpl. f_equal. exact Hall.
        -- right. destruct Hcs as [ -> | [ j [ stj [ Hj Hr ] ] ] ].
           ++ exists 1%nat, st1. rewrite Hcons. simpl. auto.
           ++ exists (S j), stj. rewrite Hcons. auto.
    + destruct (IH _ _ H) as [ [ k [ Hk Hend ] ] Hcs ]. split.
      * exists (S k). rewrite Hcons. split; [ exact Hk | ].
        destruct Hend as [ Hall | [ s [ b [ Hb' _ ] ] ] ]; [ left | congruence ].
        simpl. f_equal. exact Hall.
      * destruct Hcs as [ -> | [ j [ stj [ Hj Hr ] ] ] ]; [ left; reflexivity | ].
        right. exists (S j), stj. rewrite Hcons. auto.
Qed.

End SingleLoop.

(** ** Text *)

Lemma append_empty (s1 s2 : string) :
  (s1 ++ s2)%string = "" -> s1 = "" /\ s2 = "".
Proof.
  destruct s1; simpl; [ auto | discriminate ].
Qed.

Lemma concat_nonempty (sep x : string) (l : list string) :
  In x l -> x <> "" -> String.concat sep l <> "".
Proof.
  induction l as [ | y l IH ]; intros Hin Hx; [ destruct Hin | ].
  destruct l as [ | z l ].
  - destruct Hin as [ -> | [] ]. exact Hx.
  - change (String.concat sep (y :: z :: l))
      with (y ++ sep ++ String.concat sep (z :: l))%string.
    intros Hnil. apply append_empty in Hnil. destruct Hnil as [ Hy Hrest ].
    apply append_empty in Hrest. destruct Hrest as [ _ Hrest ].
    destruct Hin as [ -> | Hin ]; [ exact (Hx Hy) | ].
    exact (IH Hin Hx Hrest).
Qed.

Lemma table_text_nonempty (header body : string) :
  (header ++ newline ++ body)%string <> "".
Proof.
  intros H. apply append_empty in H. destruct H as [ _ H ].
  apply append_empty in H. destruct H as [ H _ ]. discriminate.
Qed.

Section SingleNonEmpty.
Context {schemas : Schema} {pandas : Pandas} {tokenizer : Tokenizer}.

Lemma block_frame_inhabited (id_column : string) (rows : list dict)
    (d : dict) :
  In d rows -> has_identity id_column d = true ->
  empty (Single.block_frame id_column rows) = false.
Proof.
  intros Hd Hid. pose proof (columns_block_frame _ _ _ Hd Hid) as Hcol.
  unfold empty.
  destruct (columns (Single.block_frame id_column rows)) as [ | c cols ];
    [ destruct Hcol | ].
  destruct (records (Single.block_frame id_column rows)) as [ | r rs ] eqn:Hrec;
    [ | reflexivity ].
  exfalso. unfold Single.block_frame, drop_duplicates in Hrec. simpl in Hrec.
  apply dedup_nil_iff, map_eq_nil in Hrec.
  assert (Hin : In d (filter (has_identity id_column) rows)).
  { apply filter_In. split; assumption. }
  rewrite Hrec in Hin. destruct Hin.
Qed.

(** A block with an identified record is one text, and not the empty
    one. *)
Lemma block_inhabited (header id_column : string) (rows : list dict)
    (d : dict) (b : list string) :
  In d rows -> has_identity id_column d = true ->
  Single.block header id_column rows = Some b ->
  exists x, b = [x] /\ x <> "".
Proof.
  intros Hd Hid. unfold Single.block.
  rewrite (block_frame_inhabited _ _ _ Hd Hid).
  destruct (Single.normalize_id _ _) as [ df | ]; simpl; [ | discriminate ].
  intros H. inversion H. eexists. split; [ reflexivity | ].
  apply table_text_nonempty.
Qed.

Lemma render_nonempty (reports : option (list dict)) (st : Single.Growth)
    (e : dict) (s : string) :
  In e (Single.sorted_edges st) -> has_identity EDGE_ID e = true ->
  Single.render reports st = Some s -> s <> "".
Proof.
  intros He Hid. unfold Single.render.
  rewrite get_context_string_layout. unfold Single.layout, Single.blocks.
  destruct (Single.block reports_header _ _) as [ rb | ]; simpl;
    [ | discriminate ].
  destruct (Single.block entities_header _ _) as [ eb | ]; simpl;
    [ | discriminate ].
  destruct (Single.block claims_header _ _) as [ cb | ]; simpl;
    [ | discriminate ].
  destruct (Single.block relationships_header _ _) as [ gb | ] eqn:Hg; simpl;
    [ | discriminate ].
  intros H. inversion H.
  destruct (block_inhabited _ _ _ _ _ He Hid Hg) as [ x [ -> Hx ] ].
  apply concat_nonempty with (x := x); [ | exact Hx ].
  rewrite !in_app_iff. simpl. auto.
Qed.
End SingleNonEmpty.

(** ** The batch renderer *)
Section BatchRenderer.
Context {schemas : Schema} {pandas : Pandas} {tokenizer : Tokenizer}.

Lemma table_dedup (header : string) (rows : list dict) :
  Batch.table header (dedup dict_eq_dec rows) = Batch.table header rows.
Proof.
  unfold Batch.table. rewrite frame_of_dedup. reflexivity.
Qed.

Lemma batch_get_context_string_dedup (entities edges claims : list dict)
    (contexts : list string) :
  Batch._get_context_string (dedup dict_eq_dec entities)
    (dedup dict_eq_dec edges) (dedup dict_eq_dec claims) contexts
  = Batch._get_context_string entities edges claims contexts.
Proof.
  unfold Batch._get_context_string.
  destruct entities as [ | e es ], claims as [ | c cs ], edges as [ | g gs ];
    try reflexivity;
    repeat match goal with
    | |- context [ dedup dict_eq_dec (?x :: ?l) ] =>
        change (x :: filter (differs dict_eq_dec x) (dedup dict_eq_dec l))
          with (dedup dict_eq_dec (x :: l));
        rewrite (table_dedup _ (x :: l))
    end; reflexivity.
Qed.
End BatchRenderer.

(** * The claims *)

Section SingleClaims.
Context {schemas : Schema} {pandas : Pandas} {tokenizer : Tokenizer}.

(** C1, as amended: at a growth step of [sort_context] for an edge whose
    source node has a non-empty claim list, the claim list of the source
    is appended once and then the claim list of the target once. *)
Theorem grow_step_appends_source_then_target (flat : Single.Flattened)
    (st : Single.Growth) (edge : dict) (source target : value) :
  get EDGE_SOURCE edge = Some source ->
  get EDGE_TARGET edge = Some target ->
  Single.get_or source (Single.flat_claims flat) [] <> [] ->
  exists st',
    Single.grow_step flat st edge = Some st'
    /\ Single.sorted_claims st'
       = Single.sorted_claims st
           ++ Single.get_or source (Single.flat_claims flat) []
           ++ Single.get_or target (Single.flat_claims flat) [].
Proof.
  intros Hs Ht Hne. unfold Single.grow_step. rewrite Hs, Ht. simpl.
  eexists. split; [ reflexivity | ]. simpl. unfold Single.extend_claims.
  destruct (Single.get_or source (Single.flat_claims flat) []) as [ | c cs ];
    [ congruence | ].
  simpl. rewrite <- app_assoc. reflexivity.
Qed.

(** C7: at a growth step of [sort_context] for an edge whose source node
    has no claims, no claim is added, whatever claims the target has. *)
Theorem grow_step_without_source_claims (flat : Single.Flattened)
    (st : Single.Growth) (edge : dict) (source target : value) :
  get EDGE_SOURCE edge = Some source ->
  get EDGE_TARGET edge = Some target ->
  Single.get_or source (Single.flat_claims flat) [] = [] ->
  exists st',
    Single.grow_step flat st edge = Some st'
    /\ Single.sorted_claims st' = Single.sorted_claims st.
Proof.
  intros Hs Ht Hnil. unfold Single.grow_step. rewrite Hs, Ht. simpl.
  eexists. split; [ reflexivity | ]. simpl. unfold Single.extend_claims.
  rewrite Hnil. simpl. rewrite !app_nil_r. reflexivity.
Qed.



(** C10, as amended: the frames that [sort_context] renders for entities,
    relationships, claims and reports, and the frames that
    [sort_context_batch] renders for entities, relationships and claims,
    hold every row once, and rendering a collection with repeated records
    equals rendering it with the repetitions removed.  (The report block of
    [sort_context_batch] is written from the report rows as supplied.) *)
Theorem rendering_ignores_repeated_records (entities edges claims : list dict)
    (reports : option (list dict)) (contexts : list string) :
  Single._get_context_string (dedup dict_eq_dec entities)
      (dedup dict_eq_dec edges) (dedup dict_eq_dec claims)
      (option_map (dedup dict_eq_dec) reports)
    = Single._get_context_string entities edges claims reports
  /\ Batch._get_context_string (dedup dict_eq_dec entities)
       (dedup dict_eq_dec edges) (dedup dict_eq_dec claims) contexts
     = Batch._get_context_string entities edges claims contexts
  /\ (forall id_column rows,
        NoDup (records (Single.block_frame id_column rows)))
  /\ (forall rows, NoDup (records (drop_duplicates (frame_of rows)))).
Proof.
  split; [ | split; [ apply batch_get_context_string_dedup | split ] ].
  - rewrite !get_context_string_layout. unfold Single.layout, Single.blocks.
    rewrite !block_dedup.
    replace (Single.or_empty (option_map (dedup dict_eq_dec) reports))
      with (dedup dict_eq_dec (Single.or_empty reports))
      by (destruct reports; reflexivity).
    rewrite block_dedup. reflexivity.
  - intros id_column rows. apply records_frame_of_NoDup.
  - intros rows. apply records_frame_of_NoDup.
Qed.
End SingleClaims.

(** ** Inputs on which [sort_context] raises no exception *)
Section SingleTotal.
Context {schemas : Schema} {pandas : Pandas} {tokenizer : Tokenizer}.

(** pandas casts a float column without NaN. *)
Hypothesis astype_int_defined :
  forall c df,
    dtype_is_float c df = true ->
    forallb (Single.finite_id c) (records df) = true ->
    astype_int c df <> None.

Lemma block_frame_finite (id_column : string) (rows : list dict) :
  forallb (Single.finite_id id_column) rows = true ->
  forallb (Single.finite_id id_column)
    (records (Single.block_frame id_column rows)) = true.
Proof.
  intros Hrows. apply forallb_forall. intros r Hr.
  destruct (block_frame_rows _ _ _ Hr) as [ _ [ d [ Hd [ Hid Hrd ] ] ] ].
  rewrite forallb_forall in Hrows. specialize (Hrows d Hd).
  unfold Single.finite_id in *. unfold has_identity in Hid.
  destruct (get id_column d) as [ v | ] eqn:Hv; [ | discriminate ].
  rewrite Hrd.
  erewrite get_reindex_present;
    [ exact Hrows | eapply columns_block_frame; [ exact Hd | ] | exact Hv ].
  unfold has_identity. rewrite Hv. exact Hid.
Qed.

Lemma block_total (header id_column : string) (rows : list dict) :
  forallb (Single.finite_id id_column) rows = true ->
  exists b, Single.block header id_column rows = Some b.
Proof.
  intros Hrows. unfold Single.block.
  destruct (empty _); [ eexists; reflexivity | ].
  unfold Single.normalize_id.
  destruct (dtype_is_float id_column _) eqn:Hfloat;
    [ | eexists; reflexivity ].
  pose proof (astype_int_defined _ _ Hfloat (block_frame_finite _ _ Hrows))
    as Hcast.
  destruct (astype_int id_column _); [ eexists; reflexivity | congruence ].
Qed.

Lemma render_total (reports : option (list dict)) (st : Single.Growth) :
  forallb (Single.finite_id COMMUNITY_ID) (Single.or_empty reports) = true ->
  Single.clean st -> exists s, Single.render reports st = Some s.
Proof.
  intros Hr [ Hn [ He Hc ] ]. unfold Single.render.
  rewrite get_context_string_layout. unfold Single.layout, Single.blocks.
  destruct (block_total reports_header _ _ Hr) as [ rb -> ].
  destruct (block_total entities_header _ _ Hn) as [ eb -> ].
  destruct (block_total claims_header _ _ Hc) as [ cb -> ].
  destruct (block_total relationships_header _ _ He) as [ gb -> ].
  simpl. eexists. reflexivity.
Qed.

Lemma flatten_clean (local_context : list Single.LocalContextRecord) :
  forallb
    (fun r =>
       Single.finite_id NODE_ID (Single.node_details r)
       && forallb (Single.finite_id CLAIM_ID)
            (Single.dropna (Single.or_empty (Single.claim_details r))))
    local_context = true ->
  Single.clean_flat (Single.flatten local_context).
Proof.
  unfold Single.flatten.
  assert (Hgen : forall acc, Single.clean_flat acc ->
            forallb
              (fun r =>
                 Single.finite_id NODE_ID (Single.node_details r)
                 && forallb (Single.finite_id CLAIM_ID)
                      (Single.dropna (Single.or_empty (Single.claim_details r))))
              local_context = true ->
            Single.clean_flat (fold_left Single.flatten_record local_context acc)).
  { induction local_context as [ | r rs IH ]; simpl; intros acc Hacc Hall;
      [ exact Hacc | ].
    apply andb_true_iff in Hall. destruct Hall as [ Hr Hrs ].
    apply andb_true_iff in Hr. destruct Hr as [ Hn Hc ].
    apply IH; [ | exact Hrs ].
    destruct Hacc as [ Hnodes Hclaims ]. split; simpl.
    - intros k d. destruct (value_eq_dec k (Single.node_name r)).
      + intros H. inversion H. subst. exact Hn.
      + apply Hnodes.
    - intros k l. destruct (value_eq_dec k (Single.node_name r)).
      + intros H. inversion H. subst. exact Hc.
      + apply Hclaims. }
  apply Hgen. split; simpl; intros; discriminate.
Qed.

Lemma grow_step_clean (flat : Single.Flattened) (st : Single.Growth)
    (e : dict) :
  Single.clean_flat flat -> Single.clean st ->
  Single.complete_edge e && Single.finite_id EDGE_ID e = true ->
  exists st', Single.grow_step flat st e = Some st' /\ Single.clean st'.
Proof.
  intros [ Hnodes Hclaims ] [ Hn [ He Hc ] ] Hedge.
  apply andb_true_iff in Hedge. destruct Hedge as [ Hcomplete Hfinite ].
  unfold Single.complete_edge in Hcomplete. unfold Single.grow_step.
  destruct (get EDGE_SOURCE e) as [ source | ]; [ | discriminate ].
  destruct (get EDGE_TARGET e) as [ target | ]; [ | discriminate ].
  simpl. eexists. split; [ reflexivity | ].
  assert (Hnode : forall k, Single.finite_id NODE_ID
                    (Single.get_or k (Single.flat_nodes flat) []) = true).
  { intros k. unfold Single.get_or.
    destruct (Single.store_get k (Single.flat_nodes flat)) eqn:Hk;
      [ eapply Hnodes; exact Hk | reflexivity ]. }
  assert (Hclaim : forall k, forallb (Single.finite_id CLAIM_ID)
                    (Single.get_or k (Single.flat_claims flat) []) = true).
  { intros k. unfold Single.get_or.
    destruct (Single.store_get k (Single.flat_claims flat)) eqn:Hk;
      [ eapply Hclaims; exact Hk | reflexivity ]. }
  unfold Single.clean. simpl. unfold Single.extend_claims.
  rewrite !forallb_app. simpl. rewrite Hn, He, Hc, !Hnode, Hfinite. simpl.
  repeat split.
  destruct (Single.nonempty _); simpl; rewrite ?Hclaim; reflexivity.
Qed.

Lemma grow_lists_clean (flat : Single.Flattened) (edges : list dict)
    (st st' : Single.Growth) :
  Single.clean_flat flat -> Single.clean st ->
  forallb (fun e => Single.complete_edge e && Single.finite_id EDGE_ID e)
    edges = true ->
  Single.grow_lists flat st edges = Some st' -> Single.clean st'.
Proof.
  intros Hflat. revert st. induction edges as [ | e edges IH ]; simpl;
    intros st Hst Hall H.
  - inversion H. subst. exact Hst.
  - apply andb_true_iff in Hall. destruct Hall as [ He Hall ].
    destruct (grow_step_clean flat st e Hflat Hst He) as [ st1 [ Hstep Hst1 ] ].
    rewrite Hstep in H. simpl in H. exact (IH st1 Hst1 Hall H).
Qed.

Lemma grow_total (flat : Single.Flattened) (reports : option (list dict))
    (max_tokens : option Z) (edges : list dict) (st : Single.Growth)
    (cs : string) :
  Single.clean_flat flat -> Single.clean st ->
  forallb (Single.finite_id COMMUNITY_ID) (Single.or_empty reports) = true ->
  forallb (fun e => Single.complete_edge e && Single.finite_id EDGE_ID e)
    edges = true ->
  exists final, Single.grow flat reports max_tokens edges st cs = Some final.
Proof.
  intros Hflat Hst Hr. revert st cs Hst.
  induction edges as [ | e edges IH ]; simpl; intros st cs Hst Hall.
  - eexists. reflexivity.
  - apply andb_true_iff in Hall. destruct Hall as [ He Hall ].
    destruct (grow_step_clean flat st e Hflat Hst He) as [ st1 [ -> Hst1 ] ].
    simpl. destruct (budget max_tokens) as [ b | ].
    + destruct (render_total reports st1 Hr Hst1) as [ s -> ]. simpl.
      destruct (exceeds s b); [ eexists; reflexivity | ].
      apply IH; assumption.
    + apply IH; assumption.
Qed.

Lemma forallb_firstn {A : Type} (p : A -> bool) (n : nat) (l : list A) :
  forallb p l = true -> forallb p (firstn n l) = true.
Proof.
  rewrite !forallb_forall. intros H x Hx. apply H.
  eapply In_firstn. exact Hx.
Qed.

Lemma forallb_perm {A : Type} (p : A -> bool) (l l' : list A) :
  Permutation l l' -> forallb p l = true -> forallb p l' = true.
Proof.
  rewrite !forallb_forall. intros Hperm H x Hx. apply H.
  eapply Permutation_in; [ symmetry; exact Hperm | exact Hx ].
Qed.

Lemma initial_clean : Single.clean Single.initial.
Proof. repeat split. Qed.

(** A well-formed input makes [sort_context] return. *)
Lemma sort_context_total (local_context : list Single.LocalContextRecord)
    (reports : option (list dict)) (max_tokens : option Z) :
  Single.well_formed local_context reports = true ->
  exists s, Single.sort_context local_context reports max_tokens = Some s.
Proof.
  unfold Single.well_formed. rewrite !andb_true_iff.
  intros [ [ [ Hsortable Hedges ] Hnodes ] Hreports ].
  pose proof (flatten_clean _ Hnodes) as Hflat.
  unfold Single.sort_context.
  destruct (sort_by_degree_total _ Hsortable) as [ sorted Hsorted ].
  rewrite Hsorted. simpl.
  assert (Hall : forallb
            (fun e => Single.complete_edge e && Single.finite_id EDGE_ID e)
            sorted = true).
  { eapply forallb_perm; [ | exact Hedges ]. symmetry.
    apply sort_by_degree_perm. exact Hsorted. }
  destruct (grow_total _ reports max_tokens sorted Single.initial ""
              Hflat initial_clean Hreports Hall) as [ [ st' cs' ] Hgrow ].
  rewrite Hgrow. simpl.
  destruct (String.eqb cs' ""); [ | eexists; reflexivity ].
  apply grow_inv in Hgrow. destruct Hgrow as [ [ k [ Hk _ ] ] _ ].
  apply render_total; [ exact Hreports | ].
  eapply grow_lists_clean; [ exact Hflat | exact initial_clean | | exact Hk ].
  apply forallb_firstn. exact Hall.
Qed.

(** The tokenizer counts no token in the empty string. *)
Hypothesis num_tokens_empty : num_tokens "" = 0%nat.

Lemma exceeds_nonempty (s : string) (b : Z) :
  0 <= b -> exceeds s b = true -> s <> "".
Proof.
  unfold exceeds. intros Hb Hex ->. rewrite num_tokens_empty in Hex.
  apply Z.gtb_lt in Hex. simpl in Hex. lia.
Qed.

Lemma budget_Some (max_tokens : option Z) (b : Z) :
  budget max_tokens = Some b -> max_tokens = Some b.
Proof.
  unfold budget. destruct max_tokens as [ z | ]; [ | discriminate ].
  destruct (z =? 0); [ discriminate | auto ].
Qed.

(** Whatever [sort_context] returns for a pool with an identified edge and
    a budget that is not negative is not the empty string. *)
Lemma sort_context_result_nonempty
    (local_context : list Single.LocalContextRecord)
    (reports : option (list dict)) (max_tokens : option Z) (e : dict)
    (s : string) :
  In e (Single.dict_edges (Single.flat_edges (Single.flatten local_context))) ->
  has_identity EDGE_ID e = true ->
  (forall b, max_tokens = Some b -> 0 <= b) ->
  Single.sort_context local_context reports max_tokens = Some s ->
  s <> "".
Proof.
  intros He Hid Hbudget. unfold Single.sort_context.
  destruct (Single.sort_by_degree _) as [ sorted | ] eqn:Hsort; simpl;
    [ | discriminate ].
  destruct (Single.grow _ reports max_tokens sorted Single.initial "")
    as [ [ st' cs' ] | ] eqn:Hgrow; simpl; [ | discriminate ].
  destruct (String.eqb cs' "") eqn:Hcs.
  - intros Hrender. apply grow_inv in Hgrow.
    destruct Hgrow as [ [ k [ Hk [ Hall | Hbreak ] ] ] _ ].
    + apply render_nonempty with (reports := reports) (st := st') (e := e);
        try assumption.
      rewrite (grow_lists_edges _ _ _ _ Hk), Hall. simpl.
      eapply Permutation_in; [ | exact He ]. symmetry.
      apply sort_by_degree_perm. exact Hsort.
    + destruct Hbreak as [ s0 [ b [ Hb [ Hs0 Hex ] ] ] ].
      rewrite Hrender in Hs0. inversion Hs0. subst s0.
      apply exceeds_nonempty with (b := b); [ | exact Hex ].
      apply Hbudget, budget_Some. exact Hb.
  - intros H. inversion H. subst. apply String.eqb_neq. exact Hcs.
Qed.

(** C2, as amended: for every input to [sort_context] whose pool holds an
    edge with an identity that passes the guard of the renderer, and for
    every budget that is absent or not negative, whatever string is
    returned is not empty -- also when the render of the first edge exceeds
    the budget: when no non-empty string was accepted in the loop, the
    lists at termination are rendered afresh.  A string is returned
    whenever nothing raises: on every input whose degrees are present and
    compare, whose edges have a source and a target, and whose identities
    are not NaN. *)
Theorem sort_context_returns_nonempty
    (local_context : list Single.LocalContextRecord)
    (reports : option (list dict)) (max_tokens : option Z) (e : dict) :
  In e (Single.dict_edges (Single.flat_edges (Single.flatten local_context))) ->
  has_identity EDGE_ID e = true ->
  (forall b, max_tokens = Some b -> 0 <= b) ->
  (forall s,
     Single.sort_context local_context reports max_tokens = Some s ->
     s <> ""
     /\ exists sorted st accepted,
          Single.sort_by_degree
            (Single.dict_edges
               (Single.flat_edges (Single.flatten local_context)))
          = Some sorted
          /\ Single.grow (Single.flatten local_context) reports max_tokens
               sorted Single.initial "" = Some (st, accepted)
          /\ (accepted = "" -> Single.render reports st = Some s)
          /\ (accepted <> "" -> s = accepted))
  /\ (Single.well_formed local_context reports = true ->
      exists s, Single.sort_context local_context reports max_tokens = Some s).
Proof.
  intros He Hid Hbudget. split; [ | apply sort_context_total ].
  intros s Hs.
  split; [ eapply sort_context_result_nonempty; eassumption | ].
  unfold Single.sort_context in Hs.
  destruct (Single.sort_by_degree _) as [ sorted | ]; simpl in Hs;
    [ | discriminate ].
  destruct (Single.grow _ reports max_tokens sorted Single.initial "")
    as [ [ st cs ] | ] eqn:Hgrow; simpl in Hs; [ | discriminate ].
  exists sorted, st, cs.
  split; [ reflexivity | ]. split; [ exact Hgrow | ]. split.
  - intros ->. exact Hs.
  - intros Hne. apply String.eqb_neq in Hne. rewrite Hne in Hs.
    inversion Hs. reflexivity.
Qed.
End SingleTotal.

(** ** Order of the rendered relationships, one community *)
Section SingleOrder.
Context {schemas : Schema} {pandas : Pandas} {tokenizer : Tokenizer}.












End SingleOrder.

(** ** The order of [sort_values] *)

Section BatchOrder.
Context {schemas : Schema} {pandas : Pandas} {tokenizer : Tokenizer}.

Lemma sort_values_inv (df df' : DataFrame) :
  Batch.sort_values df = Some df' ->
  exists kl,
    map snd kl = records df
    /\ Forall (fun p => Batch.sort_key (snd p) = Some (fst p)) kl
    /\ df' = mkDataFrame (columns df)
               (map snd (stable_sort Batch.keyed_leb kl)).
Proof.
  unfold Batch.sort_values. intros H.
  destruct (traverse _ (records df)) as [ kl | ] eqn:Hkl; simpl in H;
    [ | discriminate ].
  destruct (_ && _); inversion H.
  apply traverse_keyed in Hkl. destruct Hkl as [ Hmap Hall ].
  exists kl. auto.
Qed.

Lemma sort_values_columns (df df' : DataFrame) :
  Batch.sort_values df = Some df' -> columns df' = columns df.
Proof.
  intros H. destruct (sort_values_inv _ _ H) as [ kl [ _ [ _ -> ] ] ].
  reflexivity.
Qed.

Lemma sort_values_perm (df df' : DataFrame) :
  Batch.sort_values df = Some df' -> Permutation (records df') (records df).
Proof.
  intros H. destruct (sort_values_inv _ _ H) as [ kl [ <- [ _ -> ] ] ].
  simpl. apply Permutation_map, stable_sort_perm.
Qed.

Lemma sort_values_sorted (df df' : DataFrame) :
  Batch.sort_values df = Some df' ->
  StronglySorted Batch.key_le (records df').
Proof.
  intros H. destruct (sort_values_inv _ _ H) as [ kl [ _ [ Hall -> ] ] ].
  simpl.
  eapply StronglySorted_map_snd;
    [ | apply stable_sort_sorted with (leb := Batch.keyed_leb) ].
  - assert (Hall' : Forall (fun p => Batch.sort_key (snd p) = Some (fst p))
                      (stable_sort Batch.keyed_leb kl)).
    { eapply Permutation_Forall; [ symmetry; apply stable_sort_perm | exact Hall ]. }
    rewrite Forall_forall in Hall'.
    intros a b Ha Hb Hab. exists (fst a), (fst b).
    repeat split; [ apply Hall'; exact Ha | apply Hall'; exact Hb | exact Hab ].
  - intros x y. apply key_leb_total.
  - intros x y z. apply key_leb_trans.
Qed.





(** A frame without columns has at most one record after
    [drop_duplicates]. *)
Lemma records_without_columns (rows : list dict) :
  columns (frame_of rows) = [] ->
  forall R : dict -> dict -> Prop,
    StronglySorted R (records (drop_duplicates (frame_of rows))).
Proof.
  unfold drop_duplicates, frame_of. simpl. intros Hcols R. rewrite Hcols.
  simpl. clear Hcols.
  induction rows as [ | r rows IH ]; simpl; [ constructor | ].
  constructor.
  - apply StronglySorted_filter. exact IH.
  - apply Forall_forall. intros y Hy. apply filter_In in Hy.
    destruct Hy as [ Hy Hdiff ]. apply In_dedup, in_map_iff in Hy.
    destruct Hy as [ z [ <- _ ] ]. rewrite differs_refl in Hdiff.
    discriminate.
Qed.

Lemma group_edges_sorted (group : list Batch.ContextRow) (edges : DataFrame) :
  Batch.group_edges group = Some edges ->
  StronglySorted Batch.key_le (records edges).
Proof.
  unfold Batch.group_edges.
  destruct (empty _) eqn:Hempty; [ | apply sort_values_sorted ].
  intros H. inversion H. subst edges. clear H.
  unfold empty in Hempty.
  destruct (columns (drop_duplicates (frame_of _))) eqn:Hcols.
  - apply records_without_columns. exact Hcols.
  - destruct (records (drop_duplicates (frame_of _))); [ constructor | discriminate ].
Qed.

(** *** The batch growth loop *)

Lemma batch_grow_lists_edges (nodes claims : DataFrame) (edges : list dict)
    (st st' : Batch.Growth) :
  Batch.grow_lists nodes claims st edges = Some st' ->
  Batch.sorted_edges st' = Batch.sorted_edges st ++ edges.
Proof.
  revert st. induction edges as [ | e edges IH ]; simpl; intros st H.
  - inversion H. rewrite app_nil_r. reflexivity.
  - destruct (Batch.grow_step nodes claims st e) as [ st1 | ] eqn:Hstep;
      simpl in H; [ | discriminate ].
    rewrite (IH _ H). unfold Batch.grow_step in Hstep.
    destruct (get EDGE_SOURCE e); simpl in Hstep; [ | discriminate ].
    destruct (get EDGE_TARGET e); simpl in Hstep; [ | discriminate ].
    destruct (select_eq NODE_NAME _ nodes); simpl in Hstep; [ | discriminate ].
    destruct (select_eq NODE_NAME _ nodes); simpl in Hstep; [ | discriminate ].
    destruct (match records claims with [] => _ | _ :: _ => _ end);
      simpl in Hstep; [ | discriminate ].
    inversion Hstep. simpl. rewrite <- app_assoc. reflexivity.
Qed.

(** The accepted string is the incoming one, or the render of the lists
    grown from a prefix of the edges, and then within the budget in
    force. *)
Lemma batch_grow_inv (nodes claims : DataFrame) (contexts : list string)
    (max_tokens : option Z) (edges : list dict) (st st' : Batch.Growth)
    (cs cs' : string) :
  Batch.grow nodes claims contexts max_tokens edges st cs = Some (st', cs') ->
  cs' = cs
  \/ exists j stj,
       Batch.grow_lists nodes claims st (firstn j edges) = Some stj
       /\ cs' = Batch.render contexts stj
       /\ forall b, budget max_tokens = Some b -> exceeds cs' b = false.
Proof.
  revert st cs. induction edges as [ | e edges IH ]; simpl; intros st cs H.
  - inversion H. left. reflexivity.
  - destruct (Batch.grow_step nodes claims st e) as [ st1 | ] eqn:Hstep;
      simpl in H; [ | discriminate ].
    assert (Hcons : forall n,
              Batch.grow_lists nodes claims st (firstn (S n) (e :: edges))
              = Batch.grow_lists nodes claims st1 (firstn n edges)).
    { intros n. simpl. rewrite Hstep. reflexivity. }
    assert (Hnext :
      (forall b, budget max_tokens = Some b ->
                 exceeds (Batch.render contexts st1) b = false) ->
      Batch.grow nodes claims contexts max_tokens edges st1
        (Batch.render contexts st1) = Some (st', cs') ->
      cs' = cs
      \/ exists j stj,
           Batch.grow_lists nodes claims st (firstn j (e :: edges)) = Some stj
           /\ cs' = Batch.render contexts stj
           /\ forall b, budget max_tokens = Some b -> exceeds cs' b = false).
    { intros Hfit Hrest. right.
      destruct (IH _ _ Hrest) as [ -> | [ j [ stj [ Hj [ Hr Hb ] ] ] ] ].
      - exists 1%nat, st1. rewrite Hcons. simpl. auto.
      - exists (S j), stj. rewrite Hcons. auto. }
    destruct (budget max_tokens) as [ b | ] eqn:Hb.
    + destruct (exceeds (Batch.render contexts st1) b) eqn:Hex.
      * inversion H. left. reflexivity.
      * apply Hnext; [ | exact H ]. intros b' Hb'. inversion Hb'. subst.
        exact Hex.
    + apply Hnext; [ | exact H ]. intros b' Hb'. discriminate.
Qed.

(** The loop of [generate_context] accepts the renders of a prefix of its
    edges: of all of them without a budget in force. *)
Lemma batch_grow_prefix (nodes claims : DataFrame) (contexts : list string)
    (max_tokens : option Z) (edges : list dict) (st st' : Batch.Growth)
    (cs cs' : string) :
  Batch.grow nodes claims contexts max_tokens edges st cs = Some (st', cs') ->
  exists j stj,
    (j <= List.length edges)%nat
    /\ (budget max_tokens = None -> j = List.length edges)
    /\ Batch.grow_lists nodes claims st (firstn j edges) = Some stj
    /\ (j = 0%nat -> cs' = cs)
    /\ ((0 < j)%nat -> cs' = Batch.render contexts stj).
Proof.
  revert st cs. induction edges as [ | e edges IH ]; intros st cs H.
  - simpl in H. inversion H. subst. exists 0%nat, st'. simpl.
    repeat split; try lia; try congruence.
  - simpl in H.
    destruct (Batch.grow_step nodes claims st e) as [ st1 | ] eqn:Hstep;
      simpl in H; [ | discriminate ].
    assert (Hcons : forall n,
              Batch.grow_lists nodes claims st (firstn (S n) (e :: edges))
              = Batch.grow_lists nodes claims st1 (firstn n edges)).
    { intros n. simpl. rewrite Hstep. reflexivity. }
    assert (Hnext :
      Batch.grow nodes claims contexts max_tokens edges st1
        (Batch.render contexts st1) = Some (st', cs') ->
      exists j stj,
        (j <= List.length (e :: edges))%nat
        /\ (budget max_tokens = None -> j = List.length (e :: edges))
        /\ Batch.grow_lists nodes claims st (firstn j (e :: edges)) = Some stj
        /\ (j = 0%nat -> cs' = cs)
        /\ ((0 < j)%nat -> cs' = Batch.render contexts stj)).
    { intros Hrest.
      destruct (IH _ _ Hrest) as [ j [ stj [ Hle [ Hall [ Hj [ H0 Hpos ] ] ] ] ] ].
      exists (S j), stj. rewrite Hcons. simpl.
      split; [ lia | ]. split; [ intros Hb; f_equal; apply Hall; exact Hb | ].
      split; [ exact Hj | ]. split; [ lia | ]. intros _.
      destruct j as [ | j ].
      - simpl in Hj. inversion Hj. subst stj. apply H0. reflexivity.
      - apply Hpos. lia. }
    destruct (budget max_tokens) as [ b | ] eqn:Hb.
    + destruct (exceeds (Batch.render contexts st1) b) eqn:Hex.
      * inversion H. subst. exists 0%nat, st. simpl.
        repeat split; try lia; try congruence.
      * apply Hnext. exact H.
    + apply Hnext. exact H.
Qed.

(** Sorting the edges of a group keeps them all. *)
Lemma group_edges_perm (group : list Batch.ContextRow) (edges : DataFrame) :
  Batch.group_edges group = Some edges ->
  Permutation (records edges) (records (Batch.exploded_edges group)).
Proof.
  unfold Batch.group_edges, Batch.exploded_edges.
  destruct (empty _); [ intros H; inversion H; reflexivity | ].
  apply sort_values_perm.
Qed.


(** The render is the seeded blocks and the tables of the lists, joined
    by blank lines. *)
Lemma batch_layout (entities edges claims : list dict)
    (contexts : list string) :
  Batch._get_context_string entities edges claims contexts
  = String.concat blank_line (contexts ++ Batch.tables entities edges claims).
Proof.
  unfold Batch._get_context_string, Batch.tables, Batch.table_of.
  destruct entities, claims, edges; simpl; rewrite ?app_nil_r, <- ?app_assoc;
    reflexivity.
Qed.
End BatchOrder.

Section BatchClaims.
Context {schemas : Schema} {pandas : Pandas} {tokenizer : Tokenizer}.

(** The string of a row of [sort_context_batch] is the render of the lists
    grown from a prefix of the sorted edges of the group. *)
Lemma generate_context_prefix (reports : option DataFrame)
    (max_tokens : option Z) (name : value) (group : list Batch.ContextRow)
    (row : Batch.ContextResult) :
  Batch.generate_context reports max_tokens name group = Some row ->
  exists edges contexts j st,
    Batch.group_edges group = Some edges
    /\ Batch.seed_contexts reports name = Some contexts
    /\ (j <= List.length (records edges))%nat
    /\ (budget max_tokens = None -> j = List.length (records edges))
    /\ Batch.grow_lists (Batch.group_nodes group) (Batch.group_claims group)
         Batch.initial (firstn j (records edges)) = Some st
    /\ (j = 0%nat -> Batch.context_string row = "")
    /\ ((0 < j)%nat -> Batch.context_string row = Batch.render contexts st).
Proof.
  unfold Batch.generate_context. intros H.
  destruct (Batch.group_edges group) as [ edges | ] eqn:Hedges; simpl in H;
    [ | discriminate ].
  destruct (Batch.seed_contexts reports name) as [ contexts | ]; simpl in H;
    [ | discriminate ].
  destruct (Batch.grow _ _ contexts max_tokens (records edges) Batch.initial "")
    as [ [ st' cs' ] | ] eqn:Hgrow; simpl in H; [ | discriminate ].
  inversion H. simpl.
  destruct (batch_grow_prefix _ _ _ _ _ _ _ _ _ Hgrow)
    as [ j [ stj [ Hle [ Hall [ Hj [ H0 Hpos ] ] ] ] ] ].
  exists edges, contexts, j, stj. auto 10.
Qed.


(** The tokenizer counts no token in the empty string. *)
Hypothesis num_tokens_empty : num_tokens "" = 0%nat.

Lemma batch_grow_first_exceeds (nodes claims : DataFrame)
    (contexts : list string) (max_tokens : option Z) (b : Z) (e : dict)
    (rest : list dict) (st st1 : Batch.Growth) (cs : string) :
  Batch.grow_step nodes claims st e = Some st1 ->
  budget max_tokens = Some b ->
  exceeds (Batch.render contexts st1) b = true ->
  Batch.grow nodes claims contexts max_tokens (e :: rest) st cs
  = Some (st1, cs).
Proof.
  intros Hstep Hb Hex. simpl. rewrite Hstep. simpl. rewrite Hb, Hex.
  reflexivity.
Qed.

(** C3, as amended: for a community processed with a positive token budget,
    if the render of the first growth step exceeds the budget, the row
    returned has the empty context string, context size zero and the flag
    false; nothing of the grown lists is returned. *)
Theorem first_step_over_budget_returns_empty (reports : option DataFrame)
    (b : Z) (name : value) (group : list Batch.ContextRow) (edges : DataFrame)
    (e : dict) (rest : list dict) (contexts : list string)
    (st : Batch.Growth) :
  0 < b ->
  Batch.group_edges group = Some edges ->
  records edges = e :: rest ->
  Batch.seed_contexts reports name = Some contexts ->
  Batch.grow_step (Batch.group_nodes group) (Batch.group_claims group)
    Batch.initial e = Some st ->
  exceeds (Batch.render contexts st) b = true ->
  Batch.generate_context reports (Some b) name group
  = Some {| Batch.community_id := name;
            Batch.context_string := "";
            Batch.context_size := 0;
            Batch.context_exceed_flag := false;
            Batch.all_context_list := map Batch.all_context group |}.
Proof.
  intros Hb Hedges Hrec Hseed Hstep Hex. unfold Batch.generate_context.
  assert (Hbudget : budget (Some b) = Some b).
  { unfold budget. destruct (b =? 0) eqn:Hz; [ | reflexivity ].
    apply Z.eqb_eq in Hz. lia. }
  rewrite Hedges. unfold bind at 1. rewrite Hseed. unfold bind at 1.
  rewrite Hrec.
  rewrite (batch_grow_first_exceeds _ _ _ _ _ _ _ _ _ _ Hstep Hbudget Hex).
  unfold bind, snd. rewrite Hbudget, num_tokens_empty.
  f_equal. f_equal. change (Z.of_nat 0) with 0.
  rewrite Z.gtb_ltb. apply Z.ltb_ge. lia.
Qed.

Lemma traverse_Forall {A B : Type} (f : A -> option B) (l : list A)
    (l' : list B) :
  traverse f l = Some l' ->
  Forall (fun y => exists x, In x l /\ f x = Some y) l'.
Proof.
  revert l'. induction l as [ | x l IH ]; simpl; intros l' H.
  - inversion H. constructor.
  - destruct (f x) as [ y | ] eqn:Hy; simpl in H; [ | discriminate ].
    destruct (traverse f l) as [ ys | ]; simpl in H; [ | discriminate ].
    inversion H. constructor.
    + exists x. auto.
    + eapply Forall_impl; [ | apply IH; reflexivity ].
      intros z [ x' [ Hx' Hz ] ]. exists x'. auto.
Qed.

(** The flag of a row is false under a budget that is not negative: the
    string kept is the initial empty one or a render within budget. *)
Lemma generate_context_flag (reports : option DataFrame)
    (max_tokens : option Z) (name : value) (group : list Batch.ContextRow)
    (row : Batch.ContextResult) :
  (forall b, max_tokens = Some b -> 0 <= b) ->
  Batch.generate_context reports max_tokens name group = Some row ->
  Batch.context_exceed_flag row = false.
Proof.
  intros Hbudget. unfold Batch.generate_context. intros H.
  destruct (Batch.group_edges group) as [ edges | ]; simpl in H;
    [ | discriminate ].
  destruct (Batch.seed_contexts reports name) as [ contexts | ]; simpl in H;
    [ | discriminate ].
  destruct (Batch.grow _ _ contexts max_tokens (records edges) Batch.initial "")
    as [ [ st' cs' ] | ] eqn:Hgrow; simpl in H; [ | discriminate ].
  inversion H. simpl. clear H.
  destruct (budget max_tokens) as [ b | ] eqn:Hb; [ | reflexivity ].
  apply batch_grow_inv in Hgrow.
  destruct Hgrow as [ -> | [ j [ stj [ _ [ _ Hfit ] ] ] ] ].
  - rewrite num_tokens_empty. change (Z.of_nat 0) with 0.
    rewrite Z.gtb_ltb. apply Z.ltb_ge. apply Hbudget.
    unfold budget in Hb. destruct max_tokens as [ z | ]; [ | discriminate ].
    destruct (z =? 0); [ discriminate | exact Hb ].
  - exact (Hfit b Hb).
Qed.

(** C6, as amended: for every input table and every budget that is absent,
    zero or positive, every row [sort_context_batch] produces has the flag
    false. *)
Theorem batch_flag_is_false (local_contexts : list Batch.ContextRow)
    (reports : option DataFrame) (max_tokens : option Z)
    (rows : list Batch.ContextResult) :
  (forall b, max_tokens = Some b -> 0 <= b) ->
  Batch.sort_context_batch local_contexts reports max_tokens = Some rows ->
  Forall (fun row => Batch.context_exceed_flag row = false) rows.
Proof.
  intros Hbudget H. unfold Batch.sort_context_batch in H.
  apply traverse_Forall in H. eapply Forall_impl; [ | exact H ].
  intros row [ name [ _ Hrow ] ].
  eapply generate_context_flag; eassumption.
Qed.

(** C8: a community whose rows yield no edge after exploding and dropping
    nulls gets the empty context string and context size 0, whatever
    report block was seeded for it. *)
Theorem community_without_edges_is_empty (reports : option DataFrame)
    (max_tokens : option Z) (name : value) (group : list Batch.ContextRow)
    (contexts : list string) :
  Batch.explode_dropna (map Batch.edge_details group) = [] ->
  Batch.seed_contexts reports name = Some contexts ->
  exists row,
    Batch.generate_context reports max_tokens name group = Some row
    /\ Batch.context_string row = ""
    /\ Batch.context_size row = 0%nat.
Proof.
  intros Hnone Hseed. unfold Batch.generate_context, Batch.group_edges.
  rewrite Hnone. simpl. rewrite Hseed. simpl.
  eexists. split; [ reflexivity | ]. simpl.
  split; [ reflexivity | exact num_tokens_empty ].
Qed.
End BatchClaims.

(** ** Layout of the rendered text *)

Lemma append_assoc (a b c : string) :
  ((a ++ b) ++ c)%string = (a ++ b ++ c)%string.
Proof.
  induction a as [ | x a IH ]; simpl; [ reflexivity | ].
  rewrite IH. reflexivity.
Qed.

Lemma append_nil_r (a : string) : (a ++ "")%string = a.
Proof.
  induction a as [ | x a IH ]; simpl; [ reflexivity | ].
  rewrite IH. reflexivity.
Qed.

Lemma concat_empty_cons (x : string) (l : list string) :
  String.concat "" (x :: l) = (x ++ String.concat "" l)%string.
Proof.
  destruct l as [ | y l ]; simpl; [ rewrite append_nil_r | ]; reflexivity.
Qed.

Lemma concat_cons_cons (sep x y : string) (l : list string) :
  String.concat sep (x :: y :: l)
  = (x ++ sep ++ String.concat sep (y :: l))%string.
Proof. reflexivity. Qed.

Lemma concat_cons_tail (sep b : string) (post : list string) :
  String.concat sep (b :: post)
  = (b ++ String.concat "" (map (fun x => sep ++ x) post))%string.
Proof.
  revert b. induction post as [ | y post IH ]; intros b.
  - simpl. rewrite append_nil_r. reflexivity.
  - rewrite concat_cons_cons, IH. simpl map.
    rewrite concat_empty_cons, append_assoc. reflexivity.
Qed.

(** The text between two consecutive elements of a joined list. *)
Lemma concat_consecutive (sep : string) (pre : list string) (b1 b2 : string)
    (post : list string) :
  String.concat sep (pre ++ b1 :: b2 :: post)
  = (String.concat "" (map (fun x => x ++ sep) pre)
     ++ b1 ++ sep ++ b2
     ++ String.concat "" (map (fun x => sep ++ x) post))%string.
Proof.
  induction pre as [ | p pre IH ].
  - simpl app. rewrite concat_cons_cons, concat_cons_tail. reflexivity.
  - simpl map. rewrite concat_empty_cons, append_assoc.
    simpl app.
    destruct (pre ++ b1 :: b2 :: post) as [ | x xs ] eqn:Hx;
      [ destruct pre; discriminate | ].
    rewrite concat_cons_cons, IH, !append_assoc. reflexivity.
Qed.

Section RendererLayout.
Context {schemas : Schema} {pandas : Pandas} {tokenizer : Tokenizer}.

(** pandas ends every line it writes, the last one too. *)
Hypothesis to_csv_terminated : forall df, terminated (to_csv df).

Lemma block_terminated (header id_column : string) (rows : list dict)
    (bs : list string) :
  Single.block header id_column rows = Some bs -> Forall terminated bs.
Proof.
  unfold Single.block. destruct (empty _).
  - intros H. inversion H. constructor.
  - destruct (Single.normalize_id _ _) as [ df | ]; simpl; [ | discriminate ].
    intros H. inversion H. constructor; [ | constructor ].
    destruct (to_csv_terminated df) as [ t -> ].
    exists (header ++ newline ++ t)%string. rewrite !append_assoc. reflexivity.
Qed.

Lemma blocks_terminated (entities edges claims : list dict)
    (reports : option (list dict)) (bs : list string) :
  Single.blocks entities edges claims reports = Some bs ->
  Forall terminated bs.
Proof.
  unfold Single.blocks.
  destruct (Single.block reports_header _ _) as [ rb | ] eqn:Hr; simpl;
    [ | discriminate ].
  destruct (Single.block entities_header _ _) as [ eb | ] eqn:He; simpl;
    [ | discriminate ].
  destruct (Single.block claims_header _ _) as [ cb | ] eqn:Hc; simpl;
    [ | discriminate ].
  destruct (Single.block relationships_header _ _) as [ gb | ] eqn:Hg; simpl;
    [ | discriminate ].
  intros H. inversion H. rewrite !Forall_app.
  repeat split; eapply block_terminated; eassumption.
Qed.

(** C9, as amended: the renderer of [sort_context] yields one block per
    collection whose frame is not empty -- the section header line
    followed by the table that [to_csv] writes -- in the order Reports,
    Entities, Claims, Relationships, joined by two newline characters;
    every block ends with the newline of its last row, so three newline
    characters, that is two blank lines, stand between the last row of a
    block and the header of the next; when every frame is empty the result
    is the empty string. *)
Theorem get_context_string_blocks (entities edges claims : list dict)
    (reports : option (list dict)) :
  Single._get_context_string entities edges claims reports
  = option_map (String.concat blank_line)
      (Single.blocks entities edges claims reports)
  /\ Single.blocks entities edges claims reports
     = (r <- Single.block reports_header COMMUNITY_ID (Single.or_empty reports) ;;
        e <- Single.block entities_header NODE_ID entities ;;
        c <- Single.block claims_header CLAIM_ID claims ;;
        g <- Single.block relationships_header EDGE_ID edges ;;
        Some (r ++ e ++ c ++ g))
  /\ (forall header id_column rows,
        Single.block header id_column rows
        = if empty (Single.block_frame id_column rows) then Some []
          else option_map
                 (fun df => [(header ++ newline ++ to_csv df)%string])
                 (Single.normalize_id id_column
                    (Single.block_frame id_column rows)))
  /\ (forall pre b1 b2 post,
        Single.blocks entities edges claims reports
        = Some (pre ++ b1 :: b2 :: post) ->
        exists t,
          b1 = (t ++ newline)%string
          /\ Single._get_context_string entities edges claims reports
             = Some (String.concat "" (map (fun x => x ++ blank_line) pre)
                     ++ t ++ newline ++ newline ++ newline ++ b2
                     ++ String.concat "" (map (fun x => blank_line ++ x) post))%string)
  /\ (empty (Single.block_frame COMMUNITY_ID (Single.or_empty reports))
      && empty (Single.block_frame NODE_ID entities)
      && empty (Single.block_frame CLAIM_ID claims)
      && empty (Single.block_frame EDGE_ID edges) = true ->
      Single._get_context_string entities edges claims reports = Some "")
  /\ Single._get_context_string [] [] [] None = Some "".
Proof.
  split; [ apply get_context_string_layout | ].
  split; [ reflexivity | ].
  split; [ reflexivity | ].
  split; [ | split; [ | reflexivity ] ].
  - intros pre b1 b2 post Hblocks.
    pose proof (blocks_terminated _ _ _ _ _ Hblocks) as Hall.
    rewrite Forall_app in Hall. destruct Hall as [ _ Hall ].
    inversion Hall as [ | x l [ t Ht ] _ ]. subst.
    exists t. split; [ reflexivity | ].
    rewrite get_context_string_layout. unfold Single.layout.
    rewrite Hblocks. simpl option_map. rewrite concat_consecutive.
    f_equal. f_equal. rewrite !append_assoc. reflexivity.
  - intros H. rewrite !andb_true_iff in H.
    destruct H as [ [ [ Hr He ] Hc ] Hg ].
    rewrite get_context_string_layout. apply layout_all_empty; assumption.
Qed.
End RendererLayout.

(** * The theorems at concrete inputs *)
Section Examples.
#[local] Existing Instance Example.schema.
#[local] Existing Instance Example.pandas.
#[local] Existing Instance Example.tokenizer.

Import Example.

(** The writer of the examples never takes a column for a float column. *)
Lemma example_astype_int_defined :
  forall c df,
    dtype_is_float c df = true ->
    forallb (Single.finite_id c) (records df) = true ->
    astype_int c df <> None.
Proof.
  intros c df H. discriminate H.
Defined.

(** The tokenizer of the examples counts characters. *)
Lemma example_num_tokens_empty : @num_tokens tokenizer "" = 0%nat.
Proof. reflexivity. Defined.

Lemma concat_terminated (x : string) (l : list string) :
  Forall terminated (x :: l) -> terminated (String.concat "" (x :: l)).
Proof.
  revert x. induction l as [ | y l IH ]; intros x H.
  - inversion H. assumption.
  - rewrite concat_empty_cons. inversion H as [ | ? ? _ Hl ].
    destruct (IH y Hl) as [ t -> ].
    exists (x ++ t)%string. rewrite append_assoc. reflexivity.
Qed.

(** The writer of the examples ends every line. *)
Lemma write_csv_terminated : forall df, terminated (@to_csv pandas df).
Proof.
  intros df. apply concat_terminated. constructor.
  - eexists. reflexivity.
  - apply Forall_forall. intros x Hx. apply in_map_iff in Hx.
    destruct Hx as [ r [ <- _ ] ]. eexists. reflexivity.
Qed.

(** C9: one node and one edge give an Entities block and a Relationships
    block, three newline characters apart. *)
Lemma get_context_string_blocks_example :
  exists t,
    lines ["-----Entities-----"; "node_id,title"; "1,A"] = (t ++ newline)%string
    /\ Single._get_context_string [node "1" "A"] [edge "e1" "A" "B" 5] [] None
       = Some (t ++ newline ++ newline ++ newline
               ++ lines ["-----Relationships-----";
                         "edge_id,source,target,degree"; "e1,A,B,5"])%string.
Proof.
  destruct (get_context_string_blocks write_csv_terminated
              [node "1" "A"] [edge "e1" "A" "B" 5] [] None)
    as [ _ [ _ [ _ [ H _ ] ] ] ].
  destruct (H [] (lines ["-----Entities-----"; "node_id,title"; "1,A"])
              (lines ["-----Relationships-----";
                      "edge_id,source,target,degree"; "e1,A,B,5"])
              [] eq_refl) as [ t [ Ht Hs ] ].
  exists t. split; [ exact Ht | ].
  rewrite Hs. reflexivity.
Defined.

(** C9: two blank lines, not one, stand between the last row of the
    Entities block and the header of the Relationships block. *)
Lemma blocks_stand_two_blank_lines_apart :
  Single._get_context_string [node "1" "A"] [edge "e1" "A" "B" 5] [] None
  = Some (lines ["-----Entities-----"; "node_id,title"; "1,A"; ""; "";
                 "-----Relationships-----"; "edge_id,source,target,degree";
                 "e1,A,B,5"])
  /\ String.eqb
       (lines ["-----Entities-----"; "node_id,title"; "1,A"; ""; "";
               "-----Relationships-----"; "edge_id,source,target,degree";
               "e1,A,B,5"])
       (lines ["-----Entities-----"; "node_id,title"; "1,A"; "";
               "-----Relationships-----"; "edge_id,source,target,degree";
               "e1,A,B,5"])
     = false.
Proof.
  split; reflexivity.
Qed.

(** C1: node A has the claim c1, node B the claim c2; the step for the edge
    from A to B appends c1 and then c2. *)
Lemma grow_step_appends_source_then_target_example :
  Single.get_or (VStr "A") (Single.flat_claims (Single.flatten two_nodes)) []
  = [claim "c1" "A"]
  /\ exists st',
       Single.grow_step (Single.flatten two_nodes) Single.initial
         (edge "e1" "A" "B" 5) = Some st'
       /\ Single.sorted_claims st' = [] ++ [claim "c1" "A"] ++ [claim "c2" "B"].
Proof.
  split; [ reflexivity | ].
  apply (grow_step_appends_source_then_target (Single.flatten two_nodes)
           Single.initial (edge "e1" "A" "B" 5) (VStr "A") (VStr "B"));
    [ reflexivity | reflexivity | discriminate ].
Defined.

(** C1: the step does not append c1 twice. *)
Lemma source_claims_are_not_appended_twice :
  Single.grow_step (Single.flatten two_nodes) Single.initial
    (edge "e1" "A" "B" 5)
  = Some {| Single.sorted_nodes := [node "1" "A"; node "2" "B"];
            Single.sorted_edges := [edge "e1" "A" "B" 5];
            Single.sorted_claims := [claim "c1" "A"; claim "c2" "B"] |}
  /\ ~ Single.appends_source_claims_twice (Single.flatten two_nodes)
         Single.initial (edge "e1" "A" "B" 5).
Proof.
  split; [ reflexivity | ].
  intros H.
  specialize (H (VStr "A") _ eq_refl ltac:(discriminate) eq_refl).
  discriminate H.
Qed.

(** C7: node C has no claims, node B has the claim c2; the step for the
    edge from C to B adds no claim. *)
Lemma grow_step_without_source_claims_example :
  Single.get_or (VStr "C") (Single.flat_claims (Single.flatten two_nodes)) []
  = []
  /\ Single.get_or (VStr "B") (Single.flat_claims (Single.flatten two_nodes)) []
     = [claim "c2" "B"]
  /\ exists st',
       Single.grow_step (Single.flatten two_nodes) Single.initial
         (edge "e2" "C" "B" 5) = Some st'
       /\ Single.sorted_claims st' = [].
Proof.
  split; [ reflexivity | ]. split; [ reflexivity | ].
  apply (grow_step_without_source_claims (Single.flatten two_nodes)
           Single.initial (edge "e2" "C" "B" 5) (VStr "C") (VStr "B"));
    reflexivity.
Defined.



(** C2: an edge without identity of degree 5 and the edge e1 of degree 1,
    under a budget of one token: the first render is empty and accepted,
    the render with e1 exceeds the budget, and the lists are rendered
    afresh. *)
Lemma sort_context_returns_nonempty_example :
  In (edge "e1" "A" "B" 1)
    (Single.dict_edges (Single.flat_edges (Single.flatten unnamed_edge_first)))
  /\ has_identity EDGE_ID (edge "e1" "A" "B" 1) = true
  /\ Single.well_formed unnamed_edge_first None = true
  /\ Single.sort_context unnamed_edge_first None (Some 1)
     = Some (lines ["-----Entities-----"; "node_id,title"; "1,A"; ""; "";
                    "-----Relationships-----"; "edge_id,source,target,degree";
                    "e1,A,B,1"])
  /\ lines ["-----Entities-----"; "node_id,title"; "1,A"; ""; "";
            "-----Relationships-----"; "edge_id,source,target,degree";
            "e1,A,B,1"] <> ""
  /\ exists st,
       Single.grow (Single.flatten unnamed_edge_first) None (Some 1)
         [edge "" "X" "Y" 5; edge "e1" "A" "B" 1] Single.initial ""
       = Some (st, "")
       /\ Single.render None st
          = Some (lines ["-----Entities-----"; "node_id,title"; "1,A"; "";
                         ""; "-----Relationships-----";
                         "edge_id,source,target,degree"; "e1,A,B,1"]).
Proof.
  assert (Hin : In (edge "e1" "A" "B" 1)
                  (Single.dict_edges
                     (Single.flat_edges (Single.flatten unnamed_edge_first))))
    by (simpl; auto).
  assert (Hbudget : forall b : Z, Some 1 = Some b -> 0 <= b)
    by (intros b H; inversion H; lia).
  assert (Hid : has_identity EDGE_ID (edge "e1" "A" "B" 1) = true)
    by reflexivity.
  assert (Hs : Single.sort_context unnamed_edge_first None (Some 1)
               = Some (lines ["-----Entities-----"; "node_id,title"; "1,A";
                              ""; ""; "-----Relationships-----";
                              "edge_id,source,target,degree"; "e1,A,B,1"]))
    by reflexivity.
  destruct (sort_context_returns_nonempty example_astype_int_defined
              example_num_tokens_empty unnamed_edge_first None (Some 1)
              (edge "e1" "A" "B" 1) Hin Hid Hbudget) as [ Hpartial Htotal ].
  destruct (Hpartial _ Hs)
    as [ Hne [ sorted [ st [ accepted [ Hsort [ Hgrow [ Hfallback _ ] ] ] ] ] ] ].
  split; [ exact Hin | ]. split; [ reflexivity | ]. split; [ reflexivity | ].
  split; [ reflexivity | ]. split; [ exact Hne | ].
  vm_compute in Hsort. inversion Hsort. subst sorted.
  assert (Hacc : exists st0,
            Single.grow (Single.flatten unnamed_edge_first) None (Some 1)
              [edge "" "X" "Y" 5; edge "e1" "A" "B" 1] Single.initial ""
            = Some (st0, ""))
    by (vm_compute; eexists; reflexivity).
  destruct Hacc as [ st0 Hst0 ].
  change (Single.grow (Single.flatten unnamed_edge_first) None (Some 1)
            [edge "" "X" "Y" 5; edge "e1" "A" "B" 1] Single.initial ""
          = Some (st, accepted)) in Hgrow.
  rewrite Hst0 in Hgrow. inversion Hgrow. subst st0 accepted.
  exists st. split; [ exact Hst0 | ]. apply Hfallback. reflexivity.
Defined.

(** C2: the same input under the budget -1: the render of the first edge
    is empty and already exceeds the budget, and the empty string is
    returned although the pool holds the edge e1.  And a pool whose only
    edge is a dictionary with an empty identity gives the empty string
    under any budget: the edge has to pass the guard of the renderer. *)
Lemma sort_context_empty_under_negative_budget :
  In (edge "e1" "A" "B" 1)
    (Single.dict_edges (Single.flat_edges (Single.flatten unnamed_edge_first)))
  /\ has_identity EDGE_ID (edge "e1" "A" "B" 1) = true
  /\ Single.well_formed unnamed_edge_first None = true
  /\ Single.sort_context unnamed_edge_first None (Some (-1)) = Some ""
  /\ Single.dict_edges (Single.flat_edges (Single.flatten unnamed_edge_only))
     = [edge "" "X" "Y" 5]
  /\ Single.sort_context unnamed_edge_only None None = Some ""
  /\ Single.sort_context unnamed_edge_only None (Some 1) = Some "".
Proof.
  split; [ simpl; auto | ]. repeat split; reflexivity.
Qed.

(** C3: community 1 under a budget of one token. *)
Lemma first_step_over_budget_returns_empty_example :
  Batch.generate_context (Some reports) (Some 1) (VInt 1) community_one
  = Some {| Batch.community_id := VInt 1;
            Batch.context_string := "";
            Batch.context_size := 0;
            Batch.context_exceed_flag := false;
            Batch.all_context_list := [[node "1" "A"]; [node "" "B"]] |}.
Proof.
  eapply (first_step_over_budget_returns_empty example_num_tokens_empty
            (Some reports) 1
            (VInt 1) community_one).
  - lia.
  - vm_compute. reflexivity.
  - vm_compute. reflexivity.
  - vm_compute. reflexivity.
  - vm_compute. reflexivity.
  - vm_compute. reflexivity.
Defined.

(** C3: community 1 under the budget -1: the render of the first step
    exceeds the budget, the string is empty, and the flag is true. *)
Lemma first_step_over_negative_budget_sets_flag :
  Batch.generate_context (Some reports) (Some (-1)) (VInt 1) community_one
  = Some {| Batch.community_id := VInt 1;
            Batch.context_string := "";
            Batch.context_size := 0;
            Batch.context_exceed_flag := true;
            Batch.all_context_list := [[node "1" "A"]; [node "" "B"]] |}.
Proof.
  reflexivity.
Qed.


(** C6: both communities under a budget of thirty tokens. *)
Lemma batch_flag_is_false_example :
  exists rows,
    Batch.sort_context_batch (community_one ++ community_two) (Some reports)
      (Some 30) = Some rows
    /\ List.length rows = 2%nat
    /\ Forall (fun row => Batch.context_exceed_flag row = false) rows.
Proof.
  eexists. split; [ reflexivity | ]. split; [ reflexivity | ].
  apply (batch_flag_is_false example_num_tokens_empty
           (community_one ++ community_two)
           (Some reports) (Some 30)).
  - intros b H. inversion H. lia.
  - reflexivity.
Defined.

(** C6: both communities under the budget -1: every row has the flag
    true. *)
Lemma batch_flag_is_true_under_negative_budget :
  option_map (map Batch.context_exceed_flag)
    (Batch.sort_context_batch (community_one ++ community_two) (Some reports)
       (Some (-1)))
  = Some [true; true].
Proof.
  reflexivity.
Qed.

(** C8: community 2 lists no edge; its report fits a budget of one hundred
    tokens and is seeded, and the row is empty. *)
Lemma community_without_edges_is_empty_example :
  Batch.seed_contexts (Some reports) (VInt 2)
  = Some [lines ["----Reports-----"; "community,summary"; "2,y"]]
  /\ exceeds (lines ["----Reports-----"; "community,summary"; "2,y"]) 100
     = false
  /\ exists row,
       Batch.generate_context (Some reports) (Some 100) (VInt 2) community_two
       = Some row
       /\ Batch.context_string row = ""
       /\ Batch.context_size row = 0%nat.
Proof.
  split; [ reflexivity | ]. split; [ reflexivity | ].
  apply (community_without_edges_is_empty example_num_tokens_empty
           (Some reports) (Some 100)
           (VInt 2) community_two
           [lines ["----Reports-----"; "community,summary"; "2,y"]]);
    reflexivity.
Defined.

(** C10: the report of community 1 is supplied twice, and the report block
    seeded for the community holds its row twice; with the repetition
    removed from the table the block holds it once. *)
Lemma batch_report_rows_are_not_deduplicated :
  count_occ dict_eq_dec (records reports) (report 1 "x") = 2%nat
  /\ Batch.seed_contexts (Some reports) (VInt 1)
     = Some [lines ["----Reports-----"; "community,summary"; "1,x"; "1,x"]]
  /\ Batch.seed_contexts (Some (drop_duplicates reports)) (VInt 1)
     = Some [lines ["----Reports-----"; "community,summary"; "1,x"]]
  /\ option_map Batch.context_string
       (Batch.generate_context (Some reports) None (VInt 1) community_one)
     = Some (lines ["----Reports-----"; "community,summary"; "1,x"; "1,x";
                    ""; "";
                    "-----Entities-----"; "node_id,title"; "1,A"; ",B"; ""; "";
                    "-----Claims-----"; "claim_id,subject"; "c1,A"; ""; "";
                    "-----Relationships-----"; "edge_id,source,target,degree";
                    "e1,A,B,5"]).
Proof.
  repeat split; reflexivity.
Qed.
End Examples.

(** * Further properties of the assemblers *)

(** ** The first loop of [sort_context] *)
Section Flatten.

Lemma flat_nodes_fold (local_context : list Single.LocalContextRecord)
    (acc : Single.Flattened) :
  Single.flat_nodes (fold_left Single.flatten_record local_context acc)
  = map (fun r => (Single.node_name r, Single.node_details r))
      (rev local_context)
    ++ Single.flat_nodes acc.
Proof.
  revert acc. induction local_context as [ | r rs IH ]; intros acc; simpl.
  - reflexivity.
  - rewrite IH, map_app, <- app_assoc. reflexivity.
Qed.

Lemma flat_claims_fold (local_context : list Single.LocalContextRecord)
    (acc : Single.Flattened) :
  Single.flat_claims (fold_left Single.flatten_record local_context acc)
  = map (fun r => (Single.node_name r,
                   Single.dropna (Single.or_empty (Single.claim_details r))))
      (rev local_context)
    ++ Single.flat_claims acc.
Proof.
  revert acc. induction local_context as [ | r rs IH ]; intros acc; simpl.
  - reflexivity.
  - rewrite IH, map_app, <- app_assoc. reflexivity.
Qed.

Lemma flat_edges_fold (local_context : list Single.LocalContextRecord)
    (acc : Single.Flattened) :
  Single.flat_edges (fold_left Single.flatten_record local_context acc)
  = Single.flat_edges acc
    ++ flat_map
         (fun r => filter (fun e => negb (Single.isna e))
                     (Single.or_empty (Single.edge_details r)))
         local_context.
Proof.
  revert acc. induction local_context as [ | r rs IH ]; intros acc; simpl.
  - rewrite app_nil_r. reflexivity.
  - rewrite IH. simpl. rewrite <- app_assoc. reflexivity.
Qed.

Lemma store_get_map {A B : Type} (name : A -> value) (payload : A -> B)
    (k : value) (l : list A) :
  Single.store_get k (map (fun r => (name r, payload r)) l)
  = option_map payload (find (fun r => value_eqb k (name r)) l).
Proof.
  induction l as [ | r l IH ]; simpl; [ reflexivity | ].
  unfold value_eqb. destruct (value_eq_dec k (name r)); [ reflexivity | exact IH ].
Qed.

(** X1: the last record of a name decides what the name is bound to: its node
    details, and its claims without the null placeholders. *)
Theorem flatten_last_write_wins
    (local_context : list Single.LocalContextRecord) (k : value) :
  Single.store_get k (Single.flat_nodes (Single.flatten local_context))
  = option_map Single.node_details
      (find (fun r => value_eqb k (Single.node_name r)) (rev local_context))
  /\ Single.store_get k (Single.flat_claims (Single.flatten local_context))
     = option_map
         (fun r => Single.dropna (Single.or_empty (Single.claim_details r)))
         (find (fun r => value_eqb k (Single.node_name r)) (rev local_context)).
Proof.
  unfold Single.flatten. rewrite flat_nodes_fold, flat_claims_fold. simpl.
  rewrite !app_nil_r. split; apply store_get_map.
Qed.

Lemma dict_edges_app (l1 l2 : list Single.pyobj) :
  Single.dict_edges (l1 ++ l2) = Single.dict_edges l1 ++ Single.dict_edges l2.
Proof.
  unfold Single.dict_edges. apply flat_map_app.
Qed.

Lemma dict_edges_notna (l : list Single.pyobj) :
  Single.dict_edges (filter (fun e => negb (Single.isna e)) l)
  = Single.dict_edges l.
Proof.
  induction l as [ | o l IH ]; simpl; [ reflexivity | ].
  destruct o as [ v | d ].
  - destruct (negb (Single.isna (Single.PyVal v))); simpl; exact IH.
  - simpl. rewrite IH. reflexivity.
Qed.

(** X2: the pool of edges is the dictionaries of the records' edge lists, record
    after record and in the order of each list; nulls and other values that
    are no dictionary are left out, and a record without the edge column
    contributes nothing. *)
Theorem edge_pool_in_record_order
    (local_context : list Single.LocalContextRecord) :
  Single.dict_edges (Single.flat_edges (Single.flatten local_context))
  = flat_map
      (fun r => Single.dict_edges (Single.or_empty (Single.edge_details r)))
      local_context.
Proof.
  unfold Single.flatten. rewrite flat_edges_fold. simpl.
  induction local_context as [ | r rs IH ]; simpl; [ reflexivity | ].
  rewrite dict_edges_app, dict_edges_notna, IH. reflexivity.
Qed.
End Flatten.

(** ** The budget in [sort_context] *)
Section SingleBudget.
Context {schemas : Schema} {pandas : Pandas} {tokenizer : Tokenizer}.

Lemma grow_without_budget (flat : Single.Flattened)
    (reports : option (list dict)) (max_tokens : option Z)
    (edges : list dict) (st : Single.Growth) (cs : string) :
  budget max_tokens = None ->
  Single.grow flat reports max_tokens edges st cs
  = option_map (fun st' => (st', cs)) (Single.grow_lists flat st edges).
Proof.
  intros Hb. revert st. induction edges as [ | e edges IH ]; intros st; simpl.
  - reflexivity.
  - destruct (Single.grow_step flat st e) as [ st1 | ]; simpl; [ | reflexivity ].
    rewrite Hb. apply IH.
Qed.

(** X3: without a budget in force ([None] or [0]) nothing is accepted in the
    loop: every edge is taken, in descending degree, and the lists are
    rendered once at the end; the edges taken are the dictionaries of the
    pool, each as often as it occurs there. *)
Theorem sort_context_without_budget
    (local_context : list Single.LocalContextRecord)
    (reports : option (list dict)) (max_tokens : option Z) :
  budget max_tokens = None ->
  Single.sort_context local_context reports max_tokens
  = (sorted <- Single.sort_by_degree
                 (Single.dict_edges
                    (Single.flat_edges (Single.flatten local_context))) ;;
     st <- Single.grow_lists (Single.flatten local_context) Single.initial
             sorted ;;
     Single.render reports st)
  /\ forall sorted st,
       Single.sort_by_degree
         (Single.dict_edges (Single.flat_edges (Single.flatten local_context)))
       = Some sorted ->
       Single.grow_lists (Single.flatten local_context) Single.initial sorted
       = Some st ->
       Permutation (Single.sorted_edges st)
         (Single.dict_edges (Single.flat_edges (Single.flatten local_context)))
       /\ StronglySorted Single.degree_ge (Single.sorted_edges st).
Proof.
  intros Hb. split.
  - unfold Single.sort_context.
    destruct (Single.sort_by_degree _) as [ sorted | ]; simpl; [ | reflexivity ].
    rewrite (grow_without_budget _ _ _ _ _ _ Hb).
    destruct (Single.grow_lists _ Single.initial sorted) as [ st | ]; reflexivity.
  - intros sorted st Hsorted Hgrow.
    rewrite (grow_lists_edges _ _ _ _ Hgrow). simpl. split.
    + apply sort_by_degree_perm. exact Hsorted.
    + eapply sort_by_degree_sorted. exact Hsorted.
Qed.

(** X4: a budget of zero is no budget. *)
Theorem zero_budget_is_no_budget
    (local_context : list Single.LocalContextRecord)
    (reports : option (list dict)) (local_contexts : list Batch.ContextRow)
    (batch_reports : option DataFrame) :
  Single.sort_context local_context reports (Some 0)
  = Single.sort_context local_context reports None
  /\ Batch.sort_context_batch local_contexts batch_reports (Some 0)
     = Batch.sort_context_batch local_contexts batch_reports None.
Proof.
  split.
  - destruct (sort_context_without_budget local_context reports (Some 0) eq_refl)
      as [ -> _ ].
    destruct (sort_context_without_budget local_context reports None eq_refl)
      as [ -> _ ].
    reflexivity.
  - unfold Batch.sort_context_batch.
    assert (Hgrow : forall nodes claims contexts edges st cs,
              Batch.grow nodes claims contexts (Some 0) edges st cs
              = Batch.grow nodes claims contexts None edges st cs).
    { intros nodes claims contexts edges.
      induction edges as [ | e edges IH ]; intros st cs; simpl; [ reflexivity | ].
      destruct (Batch.grow_step nodes claims st e); simpl; [ | reflexivity ].
      apply IH. }
    assert (Hrow : forall name group,
              Batch.generate_context batch_reports (Some 0) name group
              = Batch.generate_context batch_reports None name group).
    { intros name group. unfold Batch.generate_context.
      destruct (Batch.group_edges group); simpl; [ | reflexivity ].
      destruct (Batch.seed_contexts batch_reports name); simpl; [ | reflexivity ].
      rewrite Hgrow. reflexivity. }
    induction (Batch.group_keys local_contexts) as [ | k ks IH ]; simpl;
      [ reflexivity | ].
    rewrite Hrow, IH. reflexivity.
Qed.

(** X5: with no dictionary among the edges, the result is the render of the
    reports alone, whatever the budget. *)
Theorem sort_context_without_edges
    (local_context : list Single.LocalContextRecord)
    (reports : option (list dict)) (max_tokens : option Z) :
  Single.dict_edges (Single.flat_edges (Single.flatten local_context)) = [] ->
  Single.sort_context local_context reports max_tokens
  = Single._get_context_string [] [] [] reports
  /\ (Single.or_empty reports = [] ->
      Single.sort_context local_context reports max_tokens = Some "").
Proof.
  intros Hnone. unfold Single.sort_context. rewrite Hnone. simpl.
  split; [ reflexivity | ].
  intros Hr. unfold Single.render. simpl.
  destruct reports as [ [ | r rs ] | ]; try reflexivity. discriminate.
Qed.

Lemma traverse_none {A B : Type} (f : A -> option B) (l : list A) (x : A) :
  In x l -> f x = None -> traverse f l = None.
Proof.
  induction l as [ | y l IH ]; intros Hin Hx; [ destruct Hin | ].
  simpl. destruct Hin as [ -> | Hin ].
  - rewrite Hx. reflexivity.
  - destruct (f y); simpl; [ | reflexivity ].
    rewrite (IH Hin Hx). reflexivity.
Qed.

(** X6: one edge of the pool without the degree key makes the call fail (the
    [KeyError] of the sort key), wherever the edge stands and whatever the
    budget. *)
Theorem edge_without_degree_raises
    (local_context : list Single.LocalContextRecord)
    (reports : option (list dict)) (max_tokens : option Z) (e : dict) :
  In e (Single.dict_edges (Single.flat_edges (Single.flatten local_context))) ->
  get EDGE_DEGREE e = None ->
  Single.sort_context local_context reports max_tokens = None.
Proof.
  intros He Hdeg. unfold Single.sort_context, Single.sort_by_degree.
  rewrite (traverse_none _ _ e He); [ reflexivity | ].
  unfold Single.degree. rewrite Hdeg. reflexivity.
Qed.

Lemma single_grow_fits (flat : Single.Flattened)
    (reports : option (list dict)) (max_tokens : option Z) (b : Z)
    (edges : list dict) (st st' : Single.Growth) (cs cs' : string) :
  budget max_tokens = Some b ->
  Single.grow flat reports max_tokens edges st cs = Some (st', cs') ->
  cs' = cs \/ exceeds cs' b = false.
Proof.
  intros Hb. revert st cs. induction edges as [ | e edges IH ]; simpl;
    intros st cs H.
  - inversion H. left. reflexivity.
  - destruct (Single.grow_step flat st e) as [ st1 | ]; simpl in H;
      [ | discriminate ].
    rewrite Hb in H.
    destruct (Single.render reports st1) as [ s | ]; simpl in H;
      [ | discriminate ].
    destruct (exceeds s b) eqn:Hex.
    + inversion H. left. reflexivity.
    + destruct (IH _ _ H) as [ -> | Hfit ]; right; assumption.
Qed.

(** X7: under a budget the string returned counts no more tokens than the
    budget, unless no string but the empty one was accepted in the loop and
    the lists at termination were rendered afresh. *)
Theorem sort_context_over_budget_only_by_fallback
    (local_context : list Single.LocalContextRecord)
    (reports : option (list dict)) (max_tokens : option Z) (b : Z)
    (s : string) :
  budget max_tokens = Some b ->
  Single.sort_context local_context reports max_tokens = Some s ->
  exceeds s b = false
  \/ exists sorted st,
       Single.sort_by_degree
         (Single.dict_edges (Single.flat_edges (Single.flatten local_context)))
       = Some sorted
       /\ Single.grow (Single.flatten local_context) reports max_tokens sorted
            Single.initial "" = Some (st, "")
       /\ Single.render reports st = Some s.
Proof.
  intros Hb. unfold Single.sort_context.
  destruct (Single.sort_by_degree _) as [ sorted | ]; simpl; [ | discriminate ].
  destruct (Single.grow _ reports max_tokens sorted Single.initial "")
    as [ [ st cs ] | ] eqn:Hgrow; simpl; [ | discriminate ].
  destruct (String.eqb cs "") eqn:Hcs.
  - apply String.eqb_eq in Hcs. subst cs. intros Hr. right.
    exists sorted, st. auto.
  - intros H. inversion H. subst s. left.
    destruct (single_grow_fits _ _ _ _ _ _ _ _ _ Hb Hgrow) as [ -> | Hfit ];
      [ discriminate | exact Hfit ].
Qed.

Lemma block_frame_app_unidentified (id_column : string) (l1 l2 : list dict)
    (d : dict) :
  has_identity id_column d = false ->
  Single.block_frame id_column (l1 ++ d :: l2)
  = Single.block_frame id_column (l1 ++ l2).
Proof.
  intros Hd. unfold Single.block_frame. rewrite !filter_app. simpl.
  rewrite Hd. reflexivity.
Qed.

(** X8: an edge whose source names no record raises nothing: the step goes
    through with an empty detail for the source, which has no row among
    the entities. *)
Theorem dangling_source_adds_no_entity (flat : Single.Flattened)
    (st : Single.Growth) (edge : dict) (source target : value) :
  get EDGE_SOURCE edge = Some source ->
  get EDGE_TARGET edge = Some target ->
  Single.store_get source (Single.flat_nodes flat) = None ->
  exists st',
    Single.grow_step flat st edge = Some st'
    /\ Single.sorted_nodes st'
       = Single.sorted_nodes st
           ++ [[]; Single.get_or target (Single.flat_nodes flat) []]
    /\ Single.block_frame NODE_ID (Single.sorted_nodes st')
       = Single.block_frame NODE_ID
           (Single.sorted_nodes st
              ++ [Single.get_or target (Single.flat_nodes flat) []]).
Proof.
  intros Hs Ht Hnone. unfold Single.grow_step. rewrite Hs, Ht. simpl.
  assert (Hdefault : Single.get_or source (Single.flat_nodes flat) [] = []).
  { unfold Single.get_or. rewrite Hnone. reflexivity. }
  eexists. split; [ reflexivity | ]. simpl. rewrite Hdefault.
  split; [ reflexivity | ].
  apply block_frame_app_unidentified. reflexivity.
Qed.
End SingleBudget.

(** ** The growth loop of [sort_context_batch] *)
Section BatchGrowth.
Context {schemas : Schema} {pandas : Pandas} {tokenizer : Tokenizer}.

Lemma batch_grow_greedy (nodes claims : DataFrame) (contexts : list string)
    (max_tokens : option Z) (b : Z) (edges : list dict)
    (st st' : Batch.Growth) (cs cs' : string) :
  budget max_tokens = Some b ->
  Batch.grow nodes claims contexts max_tokens edges st cs = Some (st', cs') ->
  exists j,
    (j <= List.length edges)%nat
    /\ (forall i, (1 <= i <= j)%nat ->
          exists sti,
            Batch.grow_lists nodes claims st (firstn i edges) = Some sti
            /\ exceeds (Batch.render contexts sti) b = false)
    /\ (j = List.length edges
        \/ exists stx,
             Batch.grow_lists nodes claims st (firstn (S j) edges) = Some stx
             /\ exceeds (Batch.render contexts stx) b = true)
    /\ (j = 0%nat -> cs' = cs)
    /\ ((0 < j)%nat ->
        exists stj,
          Batch.grow_lists nodes claims st (firstn j edges) = Some stj
          /\ cs' = Batch.render contexts stj).
Proof.
  intros Hb. revert st cs. induction edges as [ | e edges IH ];
    intros st cs H; simpl in H.
  - inversion H. subst. exists 0%nat. simpl. repeat split; auto; intros; lia.
  - destruct (Batch.grow_step nodes claims st e) as [ st1 | ] eqn:Hstep;
      simpl in H; [ | discriminate ].
    assert (Hcons : forall n,
              Batch.grow_lists nodes claims st (firstn (S n) (e :: edges))
              = Batch.grow_lists nodes claims st1 (firstn n edges)).
    { intros n. simpl. rewrite Hstep. reflexivity. }
    rewrite Hb in H.
    destruct (exceeds (Batch.render contexts st1) b) eqn:Hex.
    + inversion H. subst. exists 0%nat.
      split; [ simpl; lia | ]. split; [ intros; lia | ].
      split; [ | split; [ reflexivity | intros; lia ] ].
      right. exists st'. split; [ | exact Hex ].
      rewrite Hcons. reflexivity.
    + destruct (IH _ _ H) as [ j [ Hj [ Hfit [ Hend [ Hzero Hpos ] ] ] ] ].
      exists (S j). split; [ simpl; lia | ]. split; [ | split; [ | split ] ].
      * intros [ | i ] Hi; [ lia | ]. rewrite Hcons.
        destruct i as [ | i ].
        -- exists st1. simpl. auto.
        -- apply Hfit. lia.
      * destruct Hend as [ -> | [ stx [ Hx Hxex ] ] ];
          [ left; reflexivity | ].
        right. exists stx. rewrite Hcons. auto.
      * intros; lia.
      * intros _. rewrite Hcons. destruct j as [ | j ].
        -- exists st1. simpl. split; [ reflexivity | apply Hzero; reflexivity ].
        -- apply Hpos. lia.
Qed.

(** X9: under a budget the loop of [sort_context_batch] keeps the render of the
    longest run of leading edges all of whose renders fit: it stops at the
    first render that exceeds the budget, and looks at no later edge.  With
    no fitting first render the string is empty. *)
Theorem batch_keeps_longest_fitting_prefix (reports : option DataFrame)
    (max_tokens : option Z) (b : Z) (name : value)
    (group : list Batch.ContextRow) (row : Batch.ContextResult) :
  budget max_tokens = Some b ->
  Batch.generate_context reports max_tokens name group = Some row ->
  exists edges contexts j,
    Batch.group_edges group = Some edges
    /\ Batch.seed_contexts reports name = Some contexts
    /\ (j <= List.length (records edges))%nat
    /\ (forall i, (1 <= i <= j)%nat ->
          exists sti,
            Batch.grow_lists (Batch.group_nodes group) (Batch.group_claims group)
              Batch.initial (firstn i (records edges)) = Some sti
            /\ exceeds (Batch.render contexts sti) b = false)
    /\ (j = List.length (records edges)
        \/ exists stx,
             Batch.grow_lists (Batch.group_nodes group)
               (Batch.group_claims group) Batch.initial
               (firstn (S j) (records edges)) = Some stx
             /\ exceeds (Batch.render contexts stx) b = true)
    /\ (j = 0%nat -> Batch.context_string row = "")
    /\ ((0 < j)%nat ->
        exists stj,
          Batch.grow_lists (Batch.group_nodes group) (Batch.group_claims group)
            Batch.initial (firstn j (records edges)) = Some stj
          /\ Batch.context_string row = Batch.render contexts stj).
Proof.
  intros Hb. unfold Batch.generate_context. intros H.
  destruct (Batch.group_edges group) as [ edges | ]; simpl in H;
    [ | discriminate ].
  destruct (Batch.seed_contexts reports name) as [ contexts | ]; simpl in H;
    [ | discriminate ].
  destruct (Batch.grow _ _ contexts max_tokens (records edges) Batch.initial "")
    as [ [ st' cs' ] | ] eqn:Hgrow; simpl in H; [ | discriminate ].
  inversion H. simpl.
  destruct (batch_grow_greedy _ _ _ _ _ _ _ _ _ _ Hb Hgrow)
    as [ j [ Hj [ Hfit [ Hend [ Hzero Hpos ] ] ] ] ].
  exists edges, contexts, j. repeat split; auto.
Qed.

Lemma traverse_Forall2 {A B : Type} (f : A -> option B) (l : list A)
    (l' : list B) :
  traverse f l = Some l' -> Forall2 (fun x y => f x = Some y) l l'.
Proof.
  revert l'. induction l as [ | x l IH ]; simpl; intros l' H.
  - inversion H. constructor.
  - destruct (f x) as [ y | ] eqn:Hy; simpl in H; [ | discriminate ].
    destruct (traverse f l) as [ ys | ]; simpl in H; [ | discriminate ].
    inversion H. constructor; [ exact Hy | apply IH; reflexivity ].
Qed.

Lemma generate_context_row (reports : option DataFrame)
    (max_tokens : option Z) (name : value) (group : list Batch.ContextRow)
    (row : Batch.ContextResult) :
  Batch.generate_context reports max_tokens name group = Some row ->
  Batch.community_id row = name
  /\ Batch.all_context_list row = map Batch.all_context group
  /\ Batch.context_size row = num_tokens (Batch.context_string row).
Proof.
  unfold Batch.generate_context. intros H.
  destruct (Batch.group_edges group); simpl in H; [ | discriminate ].
  destruct (Batch.seed_contexts reports name); simpl in H; [ | discriminate ].
  destruct (Batch.grow _ _ _ _ _ _ _); simpl in H; [ | discriminate ].
  inversion H. simpl. auto.
Qed.

Lemma generate_context_of_group
    (local_contexts : list Batch.ContextRow) (reports : option DataFrame)
    (max_tokens : option Z) (rows : list Batch.ContextResult) :
  Batch.sort_context_batch local_contexts reports max_tokens = Some rows ->
  map Batch.community_id rows = Batch.group_keys local_contexts
  /\ Forall
       (fun row =>
          Batch.generate_context reports max_tokens (Batch.community_id row)
            (Batch.group_of local_contexts (Batch.community_id row))
          = Some row)
       rows.
Proof.
  unfold Batch.sort_context_batch. intros H. apply traverse_Forall2 in H.
  induction H as [ | name row names rows Hrow Hrest [ IHkeys IHrows ] ].
  - split; constructor.
  - destruct (generate_context_row _ _ _ _ _ Hrow) as [ Hid _ ].
    split.
    + simpl. rewrite Hid, IHkeys. reflexivity.
    + constructor; [ | exact IHrows ]. rewrite Hid. exact Hrow.
Qed.

Lemma frame_of_records_nonempty (rows : list dict) :
  rows <> [] -> records (drop_duplicates (frame_of rows)) <> [].
Proof.
  destruct rows as [ | r rows ]; [ congruence | ].
  intros _. unfold drop_duplicates, frame_of. simpl. discriminate.
Qed.

(** X11: a community that has an edge but no node details fails (the
    [KeyError] of the name column of the empty node frame, if nothing
    failed before). *)
Theorem edges_without_node_details_raise (reports : option DataFrame)
    (max_tokens : option Z) (name : value) (group : list Batch.ContextRow) :
  Batch.dropna (map Batch.node_details group) = [] ->
  Batch.explode_dropna (map Batch.edge_details group) <> [] ->
  Batch.generate_context reports max_tokens name group = None.
Proof.
  intros Hnodes Hedges. unfold Batch.generate_context, Batch.group_nodes.
  rewrite Hnodes.
  destruct (Batch.group_edges group) as [ edges | ] eqn:Hgroup; simpl;
    [ | reflexivity ].
  destruct (Batch.seed_contexts reports name) as [ contexts | ]; simpl;
    [ | reflexivity ].
  assert (Hrecords : records edges <> []).
  { unfold Batch.group_edges in Hgroup.
    pose proof (frame_of_records_nonempty _ Hedges) as Hne.
    destruct (empty _).
    - inversion Hgroup. subst. exact Hne.
    - apply sort_values_perm in Hgroup. intros Hnil. rewrite Hnil in Hgroup.
      apply Permutation_nil in Hgroup. exact (Hne Hgroup). }
  destruct (records edges) as [ | e rest ]; [ congruence | ].
  simpl. unfold Batch.grow_step.
  destruct (get EDGE_SOURCE e); simpl; [ | reflexivity ].
  destruct (get EDGE_TARGET e); simpl; reflexivity.
Qed.
End BatchGrowth.

(** ** The identity guard on numbers *)
Section NumericIdentity.
Context {schemas : Schema} {pandas : Pandas} {tokenizer : Tokenizer}.

Lemma get_reindex_inv (c : string) (cols : list string) (d : dict)
    (v : value) :
  get c (reindex cols d) = Some v -> v = cell c d.
Proof.
  unfold reindex. induction cols as [ | k cols IH ]; simpl; [ discriminate | ].
  destruct (string_dec c k) as [ -> | Hne ]; [ | exact IH ].
  intros H. inversion H. reflexivity.
Qed.

(** X12: the guard tests truthiness: a record whose identity is the integer 0
    has no row in the frame of its block (the frame built from the records
    that pass the guard, before the integer cast), and a record whose
    identity is NaN has one. *)
Theorem identity_zero_is_dropped_and_nan_kept (id_column : string)
    (rows : list dict) (d : dict) :
  In d rows ->
  (get id_column d = Some (VInt 0) ->
   ~ In (reindex (columns (Single.block_frame id_column rows)) d)
       (records (Single.block_frame id_column rows)))
  /\ (get id_column d = Some VNaN ->
      In (reindex (columns (Single.block_frame id_column rows)) d)
        (records (Single.block_frame id_column rows))).
Proof.
  intros Hd. split.
  - intros Hzero Hin.
    destruct (block_frame_rows _ _ _ Hin) as [ Hid _ ].
    unfold has_identity in Hid.
    destruct (get id_column (reindex _ d)) as [ v | ] eqn:Hv; [ | discriminate ].
    apply get_reindex_inv in Hv. unfold cell in Hv. rewrite Hzero in Hv.
    subst v. discriminate.
  - intros Hnan. unfold Single.block_frame, drop_duplicates. simpl.
    apply In_dedup, in_map, filter_In. split; [ exact Hd | ].
    unfold has_identity. rewrite Hnan. reflexivity.
Qed.
End NumericIdentity.

(** ** [sort_context_batch] without a budget, and its report block *)
Section BatchGrouping.
Context {schemas : Schema} {pandas : Pandas} {tokenizer : Tokenizer}.

(** [groupby] presents every distinct key once, keys of one kind in
    ascending order. *)
Hypothesis groupby_keys : groupby_contract.

(** X10: the result has one row for each distinct community id that is
    not null; when these ids are of one kind the rows stand in ascending
    order of id.  The row of a community is what [generate_context] returns
    for the input rows of that community: it carries their [all_context]
    cells, in their order, and the token count of its own string. *)
Theorem batch_rows_follow_communities
    (local_contexts : list Batch.ContextRow) (reports : option DataFrame)
    (max_tokens : option Z) (rows : list Batch.ContextResult) :
  Batch.sort_context_batch local_contexts reports max_tokens = Some rows ->
  Permutation (map Batch.community_id rows)
    (Batch.distinct_keys local_contexts)
  /\ NoDup (map Batch.community_id rows)
  /\ (one_kind (map key_of (Batch.distinct_keys local_contexts)) = true ->
      StronglySorted key_order (map Batch.community_id rows))
  /\ Forall
       (fun row =>
          Batch.generate_context reports max_tokens (Batch.community_id row)
            (filter
               (fun r => value_eqb (Batch.community r) (Batch.community_id row))
               local_contexts)
          = Some row
          /\ Batch.all_context_list row
             = map Batch.all_context
                 (filter
                    (fun r =>
                       value_eqb (Batch.community r) (Batch.community_id row))
                    local_contexts)
          /\ Batch.context_size row = num_tokens (Batch.context_string row))
       rows.
Proof.
  intros H.
  destruct (generate_context_of_group _ _ _ _ H) as [ Hkeys Hrows ].
  assert (Hnodup : NoDup (Batch.distinct_keys local_contexts))
    by apply NoDup_dedup.
  destruct (groupby_keys _ Hnodup) as [ Hperm Hsorted ].
  unfold Batch.group_keys in Hkeys. rewrite Hkeys.
  split; [ exact Hperm | ].
  split; [ eapply Permutation_NoDup; [ symmetry; exact Hperm | exact Hnodup ] | ].
  split; [ exact Hsorted | ].
  eapply Forall_impl; [ | exact Hrows ].
  intros row Hrow. split; [ exact Hrow | ].
  destruct (generate_context_row _ _ _ _ _ Hrow) as [ _ [ Hall Hsize ] ].
  split; [ exact Hall | exact Hsize ].
Qed.
End BatchGrouping.

Section BatchUnbounded.
Context {schemas : Schema} {pandas : Pandas} {tokenizer : Tokenizer}.

Lemma batch_grow_without_budget (nodes claims : DataFrame)
    (contexts : list string) (max_tokens : option Z) (edges : list dict)
    (st : Batch.Growth) (cs : string) :
  budget max_tokens = None ->
  Batch.grow nodes claims contexts max_tokens edges st cs
  = option_map
      (fun st' =>
         (st', match edges with
               | [] => cs
               | _ :: _ => Batch.render contexts st'
               end))
      (Batch.grow_lists nodes claims st edges).
Proof.
  intros Hb. revert st cs. induction edges as [ | e edges IH ]; intros st cs.
  - reflexivity.
  - simpl. destruct (Batch.grow_step nodes claims st e) as [ st1 | ]; simpl;
      [ | reflexivity ].
    rewrite Hb, IH. destruct edges as [ | e' edges ]; reflexivity.
Qed.

(** X13: without a budget in force every edge of the community is taken:
    the edges of the grown lists are the rows of the group's exploded,
    deduplicated edge frame, each once, by descending degree and then
    ascending id.  The string is the render of the full lists (the empty
    string for a community without edges), and the flag is false. *)
Theorem batch_without_budget (reports : option DataFrame)
    (max_tokens : option Z) (name : value) (group : list Batch.ContextRow)
    (row : Batch.ContextResult) :
  budget max_tokens = None ->
  Batch.generate_context reports max_tokens name group = Some row ->
  exists edges contexts st,
    Batch.group_edges group = Some edges
    /\ Batch.seed_contexts reports name = Some contexts
    /\ Batch.grow_lists (Batch.group_nodes group) (Batch.group_claims group)
         Batch.initial (records edges) = Some st
    /\ Batch.sorted_edges st = records edges
    /\ Permutation (Batch.sorted_edges st)
         (records (Batch.exploded_edges group))
    /\ NoDup (Batch.sorted_edges st)
    /\ (forall a b, before a b (Batch.sorted_edges st) -> Batch.key_le a b)
    /\ Batch.context_string row
       = match records edges with
         | [] => ""
         | _ :: _ =>
             String.concat blank_line
               (contexts
                  ++ Batch.tables (Batch.sorted_nodes st) (records edges)
                       (Batch.sorted_claims st))
         end
    /\ Batch.context_exceed_flag row = false.
Proof.
  intros Hb. unfold Batch.generate_context. intros H.
  destruct (Batch.group_edges group) as [ edges | ] eqn:Hedges; simpl in H;
    [ | discriminate ].
  destruct (Batch.seed_contexts reports name) as [ contexts | ]; simpl in H;
    [ | discriminate ].
  rewrite (batch_grow_without_budget _ _ _ _ _ _ _ Hb) in H.
  destruct (Batch.grow_lists _ _ Batch.initial (records edges)) as [ st | ]
    eqn:Hgrow; simpl in H; [ | discriminate ].
  inversion H. simpl. exists edges, contexts, st.
  pose proof (batch_grow_lists_edges _ _ _ _ _ Hgrow) as Hst. simpl in Hst.
  pose proof (group_edges_perm _ _ Hedges) as Hperm.
  split; [ reflexivity | ]. split; [ reflexivity | ].
  split; [ exact Hgrow | ]. split; [ exact Hst | ]. rewrite Hst.
  split; [ exact Hperm | ].
  split.
  { eapply Permutation_NoDup; [ symmetry; exact Hperm | ].
    apply records_frame_of_NoDup. }
  split.
  { intros a b. apply StronglySorted_ordered.
    eapply group_edges_sorted. exact Hedges. }
  rewrite Hb. split; [ | reflexivity ].
  destruct (records edges); [ reflexivity | ].
  unfold Batch.render. rewrite batch_layout, Hst. reflexivity.
Qed.

(** X14: when the report table holds rows of the community, the string of
    the community's row is empty or begins with the report block -- the
    header line and the text of exactly those rows, as they are supplied --
    followed by a blank-line separator and the tables of the lists grown
    from the accepted edges, of which there is at least the Relationships
    table. *)
Theorem batch_render_starts_with_reports (reports : DataFrame)
    (max_tokens : option Z) (name : value) (group : list Batch.ContextRow)
    (row : Batch.ContextResult) :
  Batch.generate_context (Some reports) max_tokens name group = Some row ->
  filter (fun r => series_eq (cell COMMUNITY_ID r) name) (records reports)
  <> [] ->
  In COMMUNITY_ID (columns reports) /\
  (Batch.context_string row = ""
   \/ exists edges j st tail,
        Batch.group_edges group = Some edges
        /\ (0 < j <= List.length (records edges))%nat
        /\ Batch.grow_lists (Batch.group_nodes group)
             (Batch.group_claims group) Batch.initial
             (firstn j (records edges)) = Some st
        /\ Batch.tables (Batch.sorted_nodes st) (Batch.sorted_edges st)
             (Batch.sorted_claims st)
           = tail ++ [Batch.table relationships_header
                        (firstn j (records edges))]
        /\ Batch.context_string row
           = ((reports_header ++ newline
               ++ to_csv
                    (mkDataFrame (columns reports)
                       (filter
                          (fun r => series_eq (cell COMMUNITY_ID r) name)
                          (records reports))))
              ++ blank_line
              ++ String.concat blank_line
                   (Batch.tables (Batch.sorted_nodes st)
                      (Batch.sorted_edges st) (Batch.sorted_claims st)))%string).
Proof.
  intros H Hrows.
  destruct (generate_context_prefix _ _ _ _ _ H)
    as [ edges [ contexts [ j [ st [ Hedges [ Hseed [ Hle [ _
         [ Hj [ H0 Hpos ] ] ] ] ] ] ] ] ] ].
  unfold Batch.seed_contexts, Batch.matching_reports, select_eq in Hseed.
  unfold has_column in Hseed.
  destruct (in_dec string_dec COMMUNITY_ID (columns reports)) as [ Hcol | ];
    simpl in Hseed; [ | discriminate ].
  split; [ exact Hcol | ].
  destruct j as [ | j ]; [ left; apply H0; reflexivity | right ].
  pose proof (batch_grow_lists_edges _ _ _ _ _ Hj) as Hst.
  change (Batch.sorted_edges st = firstn (S j) (records edges)) in Hst.
  assert (Hempty : empty
            (mkDataFrame (columns reports)
               (filter (fun r => series_eq (cell COMMUNITY_ID r) name)
                  (records reports))) = false).
  { unfold empty. simpl. destruct (columns reports); [ destruct Hcol | ].
    destruct (filter _ (records reports)); [ congruence | reflexivity ]. }
  rewrite Hempty in Hseed. inversion Hseed. subst contexts.
  destruct (firstn (S j) (records edges)) as [ | e es ] eqn:Hfirst.
  { destruct (records edges); [ simpl in Hle; lia | discriminate ]. }
  exists edges, (S j), st,
    (Batch.table_of entities_header (Batch.sorted_nodes st)
       ++ Batch.table_of claims_header (Batch.sorted_claims st)).
  rewrite Hfirst.
  assert (Htables : Batch.tables (Batch.sorted_nodes st)
                      (Batch.sorted_edges st) (Batch.sorted_claims st)
                    = (Batch.table_of entities_header (Batch.sorted_nodes st)
                         ++ Batch.table_of claims_header (Batch.sorted_claims st))
                      ++ [Batch.table relationships_header (e :: es)]).
  { unfold Batch.tables. rewrite Hst, <- app_assoc. reflexivity. }
  split; [ exact Hedges | ]. split; [ lia | ].
  split; [ exact Hj | ]. split; [ exact Htables | ].
  rewrite (Hpos (Nat.lt_0_succ j)). unfold Batch.render.
  rewrite batch_layout. simpl app.
  destruct (Batch.tables (Batch.sorted_nodes st) (Batch.sorted_edges st)
              (Batch.sorted_claims st)) as [ | t ts ] eqn:Ht.
  - destruct (Batch.table_of entities_header (Batch.sorted_nodes st)
                ++ Batch.table_of claims_header (Batch.sorted_claims st));
      discriminate Htables.
  - rewrite concat_cons_cons. reflexivity.
Qed.
End BatchUnbounded.

(** * The further properties at concrete inputs *)
Section FurtherExamples.
#[local] Existing Instance Example.schema.
#[local] Existing Instance Example.pandas.
#[local] Existing Instance Example.tokenizer.

Import Example.

(** Two nodes under the budget 0: both edges of the pool are taken. *)
Lemma sort_context_without_budget_example :
  Single.sort_context two_nodes None (Some 0)
  = (sorted <- Single.sort_by_degree
                 (Single.dict_edges
                    (Single.flat_edges (Single.flatten two_nodes))) ;;
     st <- Single.grow_lists (Single.flatten two_nodes) Single.initial sorted ;;
     Single.render None st).
Proof.
  exact (proj1 (sort_context_without_budget two_nodes None (Some 0) eq_refl)).
Defined.

(** A record whose only edge is a null placeholder, one report, and a
    budget of one token: the report block is returned. *)
Lemma sort_context_without_edges_example :
  Single.sort_context
    [ {| Single.node_name := VStr "A";
         Single.node_details := node "1" "A";
         Single.edge_details := Some [Single.PyVal VNaN];
         Single.claim_details := None |} ]
    (Some [report 1 "x"]) (Some 1)
  = Some (lines ["----Reports-----"; "community,summary"; "1,x"]).
Proof.
  rewrite (proj1 (sort_context_without_edges
                    [ {| Single.node_name := VStr "A";
                         Single.node_details := node "1" "A";
                         Single.edge_details := Some [Single.PyVal VNaN];
                         Single.claim_details := None |} ]
                    (Some [report 1 "x"]) (Some 1) eq_refl)).
  reflexivity.
Defined.

(** The second of two edges has no degree. *)
Lemma edge_without_degree_raises_example :
  Single.sort_context
    [ {| Single.node_name := VStr "A";
         Single.node_details := node "1" "A";
         Single.edge_details :=
           Some [Single.PyDict (edge "e1" "A" "B" 5);
                 Single.PyDict [("edge_id", VStr "e2"); ("source", VStr "A");
                                ("target", VStr "B")]];
         Single.claim_details := None |} ]
    None (Some 1)
  = None.
Proof.
  apply (edge_without_degree_raises _ None (Some 1)
           [("edge_id", VStr "e2"); ("source", VStr "A"); ("target", VStr "B")]).
  - simpl. auto.
  - reflexivity.
Defined.

(** Two nodes under a budget of two hundred tokens: the string fits. *)
Lemma sort_context_over_budget_only_by_fallback_example :
  exists s,
    Single.sort_context two_nodes None (Some 200) = Some s
    /\ (exceeds s 200 = false
        \/ exists sorted st,
             Single.sort_by_degree
               (Single.dict_edges (Single.flat_edges (Single.flatten two_nodes)))
             = Some sorted
             /\ Single.grow (Single.flatten two_nodes) None (Some 200) sorted
                  Single.initial "" = Some (st, "")
             /\ Single.render None st = Some s).
Proof.
  assert (Hs : exists s, Single.sort_context two_nodes None (Some 200) = Some s)
    by (vm_compute; eexists; reflexivity).
  destruct Hs as [ s Hs ]. exists s. split; [ exact Hs | ].
  exact (sort_context_over_budget_only_by_fallback two_nodes None (Some 200)
           200 s eq_refl Hs).
Defined.

(** The source C names no record; B is the second record. *)
Lemma dangling_source_adds_no_entity_example :
  exists st',
    Single.grow_step (Single.flatten two_nodes) Single.initial
      (edge "e2" "C" "B" 5) = Some st'
    /\ Single.sorted_nodes st' = [] ++ [[]; node "2" "B"]
    /\ Single.block_frame NODE_ID (Single.sorted_nodes st')
       = Single.block_frame NODE_ID ([] ++ [node "2" "B"]).
Proof.
  apply (dangling_source_adds_no_entity (Single.flatten two_nodes)
           Single.initial (edge "e2" "C" "B" 5) (VStr "C") (VStr "B"));
    reflexivity.
Defined.

(** Community 1 under a budget of one thousand tokens: its one edge is
    taken. *)
Lemma batch_keeps_longest_fitting_prefix_example :
  exists row edges contexts j,
    Batch.generate_context (Some reports) (Some 1000) (VInt 1) community_one
    = Some row
    /\ Batch.group_edges community_one = Some edges
    /\ Batch.seed_contexts (Some reports) (VInt 1) = Some contexts
    /\ (j <= List.length (records edges))%nat
    /\ (j = 0%nat -> Batch.context_string row = "").
Proof.
  assert (Hrow : exists row,
            Batch.generate_context (Some reports) (Some 1000) (VInt 1)
              community_one = Some row)
    by (vm_compute; eexists; reflexivity).
  destruct Hrow as [ row Hrow ].
  destruct (batch_keeps_longest_fitting_prefix (Some reports) (Some 1000) 1000
              (VInt 1) community_one row eq_refl Hrow)
    as [ edges [ contexts [ j [ He [ Hc [ Hj [ _ [ _ [ Hz _ ] ] ] ] ] ] ] ] ].
  exists row, edges, contexts, j. auto.
Defined.

(** The group keys of the examples are sorted by a stable sort. *)
Lemma example_groupby_contract : @groupby_contract pandas.
Proof.
  intros ks _. split.
  - apply stable_sort_perm.
  - intros _.
    apply (stable_sort_sorted value
             (fun a b => asc_leb (key_of a) (key_of b))).
    + intros x y. apply asc_leb_total.
    + intros x y z. apply asc_leb_trans.
Qed.

(** X10: community 2 listed before community 1: one row each, the row of
    community 1 first. *)
Lemma batch_rows_follow_communities_example :
  exists rows,
    Batch.sort_context_batch (community_two ++ community_one) (Some reports)
      None = Some rows
    /\ Batch.distinct_keys (community_two ++ community_one) = [VInt 2; VInt 1]
    /\ map Batch.community_id rows = [VInt 1; VInt 2]
    /\ Permutation (map Batch.community_id rows) [VInt 2; VInt 1]
    /\ NoDup (map Batch.community_id rows)
    /\ StronglySorted key_order (map Batch.community_id rows)
    /\ Forall
         (fun row =>
            Batch.generate_context (Some reports) None (Batch.community_id row)
              (filter
                 (fun r =>
                    value_eqb (Batch.community r) (Batch.community_id row))
                 (community_two ++ community_one))
            = Some row
            /\ Batch.all_context_list row
               = map Batch.all_context
                   (filter
                      (fun r =>
                         value_eqb (Batch.community r) (Batch.community_id row))
                      (community_two ++ community_one))
            /\ Batch.context_size row
               = num_tokens (Batch.context_string row))
         rows.
Proof.
  assert (Hrows : exists rows,
            Batch.sort_context_batch (community_two ++ community_one)
              (Some reports) None = Some rows)
    by (vm_compute; eexists; reflexivity).
  destruct Hrows as [ rows Hrows ]. exists rows.
  destruct (batch_rows_follow_communities example_groupby_contract
              _ _ _ _ Hrows) as [ Hperm [ Hnodup [ Hsorted Hall ] ] ].
  split; [ exact Hrows | ]. split; [ reflexivity | ].
  split; [ vm_compute in Hrows; inversion Hrows; reflexivity | ].
  split; [ exact Hperm | ]. split; [ exact Hnodup | ].
  split; [ apply Hsorted; reflexivity | exact Hall ].
Defined.

(** A community with one edge and a null node-details cell. *)
Lemma edges_without_node_details_raise_example :
  Batch.generate_context None None (VInt 1)
    [ {| Batch.community := VInt 1;
         Batch.node_details := None;
         Batch.edge_details := Some [Some (edge "e1" "A" "B" 5)];
         Batch.claim_details := None;
         Batch.all_context := [] |} ]
  = None.
Proof.
  apply (edges_without_node_details_raise None None (VInt 1)).
  - reflexivity.
  - discriminate.
Defined.

(** Of three node records with the identities 7, 0 and NaN, the second has
    no row and the third has one. *)
Lemma identity_zero_is_dropped_and_nan_kept_example :
  ~ In (reindex
          (columns
             (Single.block_frame "node_id"
                [[("node_id", VInt 7)]; [("node_id", VInt 0)];
                 [("node_id", VNaN)]]))
          [("node_id", VInt 0)])
      (records
         (Single.block_frame "node_id"
            [[("node_id", VInt 7)]; [("node_id", VInt 0)];
             [("node_id", VNaN)]]))
  /\ In (reindex
           (columns
              (Single.block_frame "node_id"
                 [[("node_id", VInt 7)]; [("node_id", VInt 0)];
                  [("node_id", VNaN)]]))
           [("node_id", VNaN)])
       (records
          (Single.block_frame "node_id"
             [[("node_id", VInt 7)]; [("node_id", VInt 0)];
              [("node_id", VNaN)]])).
Proof.
  split.
  - apply (proj1 (identity_zero_is_dropped_and_nan_kept "node_id"
                    [[("node_id", VInt 7)]; [("node_id", VInt 0)];
                     [("node_id", VNaN)]]
                    [("node_id", VInt 0)] ltac:(simpl; auto))).
    reflexivity.
  - apply (proj2 (identity_zero_is_dropped_and_nan_kept "node_id"
                    [[("node_id", VInt 7)]; [("node_id", VInt 0)];
                     [("node_id", VNaN)]]
                    [("node_id", VNaN)] ltac:(simpl; auto))).
    reflexivity.
Defined.

(** X13: the community of three edges without budget: all three edges are
    taken, e2 and e3 of degree 5 before e1 although the rows list e3 and e1
    first. *)
Lemma batch_without_budget_example :
  exists row edges contexts st,
    Batch.generate_context None None (VInt 3) community_three = Some row
    /\ Batch.group_edges community_three = Some edges
    /\ Batch.seed_contexts None (VInt 3) = Some contexts
    /\ records (Batch.exploded_edges community_three)
       = [edge "e3" "B" "C" 5; edge "e1" "A" "B" 2; edge "e2" "A" "C" 5]
    /\ Batch.sorted_edges st
       = [edge "e2" "A" "C" 5; edge "e3" "B" "C" 5; edge "e1" "A" "B" 2]
    /\ Permutation (Batch.sorted_edges st)
         (records (Batch.exploded_edges community_three))
    /\ NoDup (Batch.sorted_edges st)
    /\ Batch.context_string row
       = lines ["-----Entities-----"; "node_id,title"; "1,A"; "3,C"; "2,B";
                ""; ""; "-----Relationships-----";
                "edge_id,source,target,degree"; "e2,A,C,5"; "e3,B,C,5";
                "e1,A,B,2"]
    /\ Batch.context_exceed_flag row = false.
Proof.
  assert (Hrow : exists row,
            Batch.generate_context None None (VInt 3) community_three
            = Some row)
    by (vm_compute; eexists; reflexivity).
  destruct Hrow as [ row Hrow ].
  destruct (batch_without_budget None None (VInt 3) community_three
              row eq_refl Hrow)
    as [ edges [ contexts [ st [ He [ Hc [ _ [ Hs [ Hperm [ Hnodup
         [ _ [ _ Hf ] ] ] ] ] ] ] ] ] ] ].
  exists row, edges, contexts, st.
  split; [ exact Hrow | ]. split; [ exact He | ]. split; [ exact Hc | ].
  split; [ reflexivity | ].
  split; [ rewrite Hs; vm_compute in He; inversion He; reflexivity | ].
  split; [ exact Hperm | ]. split; [ exact Hnodup | ].
  split; [ vm_compute in Hrow; inversion Hrow; reflexivity | exact Hf ].
Defined.

(** X14: community 1 with its two report rows and no budget: the string
    begins with the report block, both rows in it. *)
Lemma batch_render_starts_with_reports_example :
  exists row,
    Batch.generate_context (Some reports) None (VInt 1) community_one
    = Some row
    /\ filter (fun r => series_eq (cell COMMUNITY_ID r) (VInt 1))
         (records reports)
       = [report 1 "x"; report 1 "x"]
    /\ Batch.context_string row <> ""
    /\ exists edges j st tail,
         Batch.group_edges community_one = Some edges
         /\ (0 < j <= List.length (records edges))%nat
         /\ Batch.grow_lists (Batch.group_nodes community_one)
              (Batch.group_claims community_one) Batch.initial
              (firstn j (records edges)) = Some st
         /\ Batch.tables (Batch.sorted_nodes st) (Batch.sorted_edges st)
              (Batch.sorted_claims st)
            = tail ++ [Batch.table relationships_header
                         (firstn j (records edges))]
         /\ Batch.context_string row
            = (lines ["----Reports-----"; "community,summary"; "1,x"; "1,x"]
               ++ blank_line
               ++ String.concat blank_line
                    (Batch.tables (Batch.sorted_nodes st)
                       (Batch.sorted_edges st) (Batch.sorted_claims st)))%string.
Proof.
  assert (Hrow : exists row,
            Batch.generate_context (Some reports) None (VInt 1) community_one
            = Some row)
    by (vm_compute; eexists; reflexivity).
  destruct Hrow as [ row Hrow ]. exists row.
  assert (Hrows : filter (fun r => series_eq (cell COMMUNITY_ID r) (VInt 1))
                    (records reports) <> [])
    by discriminate.
  assert (Hne : Batch.context_string row <> "")
    by (vm_compute in Hrow; inversion Hrow; discriminate).
  destruct (batch_render_starts_with_reports reports None (VInt 1)
              community_one row Hrow Hrows) as [ _ [ Hempty | Hblocks ] ];
    [ congruence | ].
  split; [ exact Hrow | ]. split; [ reflexivity | ]. split; [ exact Hne | ].
  exact Hblocks.
Defined.
End FurtherExamples.
